(** * The retrieval-and-filter core of the assessment recommender

    A shallow embedding of [src/queryprocessor.py] (class [QueryProcessor]:
    [extract_constraints], [filter_assessments], [process_query]) and of
    [EmbeddingEngine.search] from [src/embedding.py], followed by the
    properties of the specification that concern them.

    Python strings are modelled as lists of 8-bit characters, read as the
    Unicode code points 0..255 (ASCII and Latin-1); the classes [\d], [\s],
    [\w] and [str.lower] follow Python 3 on that range. *)

From Stdlib Require Import Ascii String ZArith NArith Lia List Bool.
From Stdlib Require Import Decimal DecimalString DecimalNat.
From stdpp Require Import base option list list_numbers gmap.
Import ListNotations.

Local Open Scope Z_scope.

(** ** Strings and character classes *)

Abbreviation str := (list ascii) (only parsing).

(** A Python string literal. *)
Definition py (s : string) : str := list_ascii_of_string s.

Definition code (c : ascii) : N := N_of_ascii c.

Definition between (lo hi : N) (c : ascii) : bool :=
  ((lo <=? code c) && (code c <=? hi))%N.

(** [\d] on a str pattern: the decimal digits (category Nd). *)
Definition is_digit (c : ascii) : bool := between 48 57 c.

(** [\s] on a str pattern: [str.isspace], that is TAB..CR, FS..US, SPACE,
    NEL and NBSP on this range. *)
Definition is_space (c : ascii) : bool :=
  between 9 13 c || between 28 32 c || between 133 133 c || between 160 160 c.

(** [\w] on a str pattern: [str.isalnum] or the underscore. *)
Definition is_word (c : ascii) : bool :=
  between 48 57 c || between 65 90 c || between 97 122 c || between 95 95 c
  || between 170 170 c || between 178 179 c || between 181 181 c
  || between 185 186 c || between 188 190 c
  || between 192 214 c || between 216 246 c || between 248 255 c.

(** [str.lower], character by character on this range. *)
Definition lower_char (c : ascii) : ascii :=
  if between 65 90 c || between 192 214 c || between 216 222 c
  then ascii_of_N (code c + 32) else c.

Definition lower (s : str) : str := map lower_char s.

(** The value of a decimal digit. *)
Definition digit_value (c : ascii) : Z := Z.of_N (code c) - 48.

(** The number that a string of decimal digits denotes: the value of
    [int(s)] when it returns (see [int_call] for the conversion with its
    limit on the number of digits). *)
Definition int (s : str) : Z :=
  fold_left (fun acc c => 10 * acc + digit_value c) s 0.

(** [t in s] on strings. *)
Fixpoint starts_with (t s : str) : bool :=
  match t, s with
  | [], _ => true
  | _ :: _, [] => false
  | x :: t', y :: s' => Ascii.eqb x y && starts_with t' s'
  end.

Fixpoint contains (t s : str) : bool :=
  starts_with t s ||
  match s with
  | [] => false
  | _ :: s' => contains t s'
  end.

(** ** The fragment of Python's [re] used by the source

    The patterns of the source use literals, the classes [\d] and [\s] under
    [*] and [+], the assertion [\b], concatenation, alternation and capturing
    groups.  The matcher is the backtracking one of [re]: [run] lists the
    ways a pattern matches at a cursor in the order the engine tries them
    (first alternative first, longest repetition first), and [re.search]
    takes the first way at the leftmost start. *)

Inductive regex : Type :=
| Lit (c : ascii)
| Cls (p : ascii -> bool)
| WordB
| Cat (r1 r2 : regex)
| Or (r1 r2 : regex)
| Rep (p : ascii -> bool)
| Grp (n : nat) (r : regex).

Definition Rep1 (p : ascii -> bool) : regex := Cat (Cls p) (Rep p).

(** The pattern of a literal text (empty text: the empty pattern). *)
Fixpoint text (t : str) : regex :=
  match t with
  | [] => Rep (fun _ => false)
  | [c] => Lit c
  | c :: t' => Cat (Lit c) (text t')
  end.

(** A cursor: the character before the position, and the rest of the
    subject from the position on. *)
Abbreviation cursor := (option ascii * list ascii)%type (only parsing).

Abbreviation groups := (list (nat * list ascii)) (only parsing).

Definition word_before (k : cursor) : bool :=
  match k.1 with Some c => is_word c | None => false end.

Definition word_after (k : cursor) : bool :=
  match k.2 with c :: _ => is_word c | [] => false end.

(** [\b]: exactly one side of the position is a word character. *)
Definition at_boundary (k : cursor) : bool := xorb (word_before k) (word_after k).

(** The text between two cursors of one subject. *)
Definition consumed (k k' : cursor) : str :=
  take (length k.2 - length k'.2)%nat k.2.

Fixpoint rep_runs (p : ascii -> bool) (before : option ascii) (s : str)
  : list cursor :=
  match s with
  | c :: s' =>
      if p c then rep_runs p (Some c) s' ++ [(before, s)] else [(before, s)]
  | [] => [(before, s)]
  end.

Fixpoint run (r : regex) (k : cursor) (g : groups) : list (cursor * groups) :=
  match r with
  | Lit c =>
      match k.2 with
      | x :: s' => if Ascii.eqb x c then [((Some x, s'), g)] else []
      | [] => []
      end
  | Cls p =>
      match k.2 with
      | x :: s' => if p x then [((Some x, s'), g)] else []
      | [] => []
      end
  | WordB => if at_boundary k then [(k, g)] else []
  | Cat r1 r2 => flat_map (fun kg => run r2 kg.1 kg.2) (run r1 k g)
  | Or r1 r2 => run r1 k g ++ run r2 k g
  | Rep p => map (fun k' => (k', g)) (rep_runs p k.1 k.2)
  | Grp n r => map (fun kg => (kg.1, (n, consumed k kg.1) :: kg.2)) (run r k g)
  end.

(** A match object: the captured groups. *)
Abbreviation Match := (list (nat * list ascii)) (only parsing).

Fixpoint group (m : Match) (n : nat) : str :=
  match m with
  | [] => []
  | (i, s) :: m' => if Nat.eqb i n then s else group m' n
  end.

Fixpoint search_from (r : regex) (before : option ascii) (s : str)
  : option Match :=
  match run r (before, s) [] with
  | (_, g) :: _ => Some g
  | [] =>
      match s with
      | [] => None
      | c :: s' => search_from r (Some c) s'
      end
  end.

(** [re.search(pattern, subject)]. *)
Definition re_search (r : regex) (s : str) : option Match :=
  search_from r None s.

(** Truth value of the result of [re.search]: a match object is true,
    [None] is false. *)
Definition matched (m : option Match) : bool :=
  match m with Some _ => true | None => false end.

(** Concatenation and alternation of several patterns. *)
Fixpoint seq (rs : list regex) : regex :=
  match rs with
  | [] => Rep (fun _ => false)
  | [r] => r
  | r :: rs' => Cat r (seq rs')
  end.

Fixpoint alt (r : regex) (rs : list regex) : regex :=
  match rs with
  | [] => r
  | r' :: rs' => Or r (alt r' rs')
  end.

(** ** Data model *)

(** An assessment record: a dict whose entries are strings; an absent key
    is [None]. *)
Module Assessment.
Record t : Type := Build {
  name : option str;
  url : option str;
  description : option str;
  duration : option str;
  remote_testing : option str;
  adaptive_irt : option str;
  test_type : option str
}.

(** [a.get(key, default)] with the empty string as default *)
Definition get (field : option str) : str := default [] field.
End Assessment.

(** The vocabulary [tech_skills] of [extract_constraints], in its order. *)
Inductive tech_skill : Type :=
| java | python | javascript | js | sql | react | angular | node
| c_plus_plus | c_sharp.

Definition tech_skills : list tech_skill :=
  [java; python; javascript; js; sql; react; angular; node;
   c_plus_plus; c_sharp].

(** The Python string of an entry, as it is stored in [found_skills]. *)
Definition skill_string (k : tech_skill) : str :=
  py match k with
     | java => "java" | python => "python" | javascript => "javascript"
     | js => "js" | sql => "sql" | react => "react" | angular => "angular"
     | node => "node" | c_plus_plus => "c\+\+" | c_sharp => "c#"
     end.

(** The text that the entry matches once it is read as a pattern: [\+] is
    an escaped plus sign, every other character stands for itself. *)
Definition skill_text (k : tech_skill) : str :=
  py match k with
     | java => "java" | python => "python" | javascript => "javascript"
     | js => "js" | sql => "sql" | react => "react" | angular => "angular"
     | node => "node" | c_plus_plus => "c++" | c_sharp => "c#"
     end.

(** The vocabulary [test_types] of [extract_constraints], in its order. *)
Inductive test_kind : Type :=
| cognitive | personality | behavior | situational | technical | coding.

Definition test_types : list test_kind :=
  [cognitive; personality; behavior; situational; technical; coding].

Definition kind_string (t : test_kind) : str :=
  py match t with
     | cognitive => "cognitive" | personality => "personality"
     | behavior => "behavior" | situational => "situational"
     | technical => "technical" | coding => "coding"
     end.

(** The constraints dict: each of its four keys is present or absent. *)
Module Constraints.
Record t : Type := Build {
  max_duration : option Z;
  duration : option Z;
  skills : option (list tech_skill);
  test_types : option (list test_kind)
}.

Definition empty : t := Build None None None None.
End Constraints.

(** ** [QueryProcessor.extract_constraints] *)

(** [r"(\d+)\s*minutes"] *)
Definition time_pattern : regex :=
  seq [Grp 1 (Rep1 is_digit); Rep is_space; text (py "minutes")].

(** [r"(less than|max|maximum|under|within|up to)\s*(\d+)\s*min"] *)
Definition max_time_pattern : regex :=
  seq [Grp 1 (alt (text (py "less than"))
                [text (py "max"); text (py "maximum"); text (py "under");
                 text (py "within"); text (py "up to")]);
       Rep is_space; Grp 2 (Rep1 is_digit); Rep is_space; text (py "min")].

(** [rf"\b{token}\b"] for a token that matches the text [t]. *)
Definition word_pattern (t : str) : regex := seq [WordB; text t; WordB].

Definition skill_pattern (k : tech_skill) : regex := word_pattern (skill_text k).

Definition kind_pattern (t : test_kind) : regex := word_pattern (kind_string t).

(** A Python list as the value of a key that is only set when the list is
    non-empty. *)
Definition if_any {A : Type} (found : list A) : option (list A) :=
  match found with
  | [] => None
  | _ :: _ => Some found
  end.

Definition extract_constraints (query : str) : Constraints.t :=
  let max_time_match := re_search max_time_pattern (lower query) in
  let time_match := re_search time_pattern query in
  let found_skills :=
    List.filter (fun skill => matched (re_search (skill_pattern skill) (lower query)))
                tech_skills in
  let found_types :=
    List.filter (fun test_type => matched (re_search (kind_pattern test_type) (lower query)))
                test_types in
  {| Constraints.max_duration :=
       match max_time_match with
       | Some m => Some (int (group m 2))
       | None => None
       end;
     Constraints.duration :=
       match time_match, max_time_match with
       | Some m, None => Some (int (group m 1))
       | _, _ => None
       end;
     Constraints.skills := if_any found_skills;
     Constraints.test_types := if_any found_types |}.

(** ** [QueryProcessor.filter_assessments] *)

(** [r"(\d+)"] *)
Definition number_pattern : regex := Grp 1 (Rep1 is_digit).

(** The condition of the two comprehensions of the duration stage:
    ["duration" in a and re.search(r"(\d+)", a["duration"]) and
     cmp(int(re.search(r"(\d+)", a["duration"]).group(1)), bound)]. *)
Definition duration_test (cmp : Z -> Z -> bool) (bound : Z)
    (a : Assessment.t) : bool :=
  match Assessment.duration a with
  | Some d =>
      match re_search number_pattern d with
      | Some m => cmp (int (group m 1)) bound
      | None => false
      end
  | None => false
  end.

Definition duration_stage (constraints : Constraints.t)
    (filtered : list Assessment.t) : list Assessment.t :=
  match Constraints.max_duration constraints, Constraints.duration constraints with
  | Some bound, _ => List.filter (duration_test Z.leb bound) filtered
  | None, Some exact => List.filter (duration_test Z.eqb exact) filtered
  | None, None => filtered
  end.

(** The inner loop of the skills stage: some skill of the constraint is
    found in the lower-cased name or description. *)
Definition mentions_skill (skills : list tech_skill) (assessment : Assessment.t)
  : bool :=
  existsb
    (fun skill =>
       matched (re_search (skill_pattern skill)
                  (lower (Assessment.get (Assessment.name assessment))))
       || matched (re_search (skill_pattern skill)
                     (lower (Assessment.get (Assessment.description assessment)))))
    skills.

(** [if matches: filtered = matches] *)
Definition replace_if_any {A : Type} (matches filtered : list A) : list A :=
  match matches with
  | [] => filtered
  | _ :: _ => matches
  end.

Definition skills_stage (constraints : Constraints.t)
    (filtered : list Assessment.t) : list Assessment.t :=
  match Constraints.skills constraints with
  | Some ((_ :: _) as skills) =>
      let skill_matches := List.filter (mentions_skill skills) filtered in
      replace_if_any skill_matches filtered
  | _ => filtered
  end.

(** The inner loop of the test-type stage. *)
Definition mentions_type (types : list test_kind) (assessment : Assessment.t)
  : bool :=
  let test_type := lower (Assessment.get (Assessment.test_type assessment)) in
  existsb
    (fun t_type =>
       contains (kind_string t_type) test_type
       || matched (re_search (kind_pattern t_type)
                     (lower (Assessment.get (Assessment.description assessment)))))
    types.

Definition test_types_stage (constraints : Constraints.t)
    (filtered : list Assessment.t) : list Assessment.t :=
  match Constraints.test_types constraints with
  | Some ((_ :: _) as types) =>
      let type_matches := List.filter (mentions_type types) filtered in
      replace_if_any type_matches filtered
  | _ => filtered
  end.

Definition filter_assessments (assessments : list Assessment.t)
    (constraints : Constraints.t) : list Assessment.t :=
  test_types_stage constraints
    (skills_stage constraints (duration_stage constraints assessments)).

(** ** Errors and the Semantic Index *)

(** A raised exception: one that derives from [Exception] (what
    [except Exception] catches), or one that does not ([KeyboardInterrupt],
    [SystemExit]). *)
Inductive exn : Type :=
| Exception (what : str)
| BaseException (what : str).

Inductive result (A : Type) : Type :=
| Return (a : A)
| Raise (e : exn).
Arguments Return {A} a.
Arguments Raise {A} e.

#[global] Instance result_ret : MRet result := fun A a => Return a.
#[global] Instance result_bind : MBind result := fun A B f m =>
  match m with
  | Return a => f a
  | Raise e => Raise e
  end.

(** What [collection.query] returns, as far as [search] looks at it: the
    value of the key ["metadatas"], one list of records per query text;
    [None] when the result or the key is missing or the value is [None]. *)
Definition QueryResult : Type := option (list (list Assessment.t)).

(** The vector store behind the engine: [collection.query(query_texts,
    n_results)]. *)
Record Collection : Type := {
  query : list str -> Z -> result QueryResult
}.

(** [EmbeddingEngine.search]; its messages on standard output are left
    out. *)
Definition search (collection : Collection) (query_text : str) (n_results : Z)
  : result (list Assessment.t) :=
  match query collection [query_text] n_results with
  | Return results =>
      match results with
      | Some (first :: _) => Return first
      | _ => Return []
      end
  | Raise (Exception _) => Return []
  | Raise e => Raise e
  end.

(** The engine handed to [QueryProcessor.__init__]: anything with a
    [search] method. *)
Record Engine : Type := {
  engine_search : str -> Z -> result (list Assessment.t)
}.

Definition EmbeddingEngine (collection : Collection) : Engine :=
  {| engine_search := search collection |}.

(** ** The conversions of [int()] that raise

    [int()] raises [ValueError] for a string of more than
    [sys.int_max_str_digits] digits, 4300 by default.  [extract_constraints]
    and [filter_assessments] above give what the two methods return;
    [extract_constraints_call] and [filter_assessments_call] are the two
    methods with this exception, statement by statement. *)

(** [str(i)] for a natural number [i]. *)
Definition str_of_nat (i : nat) : str :=
  list_ascii_of_string (NilEmpty.string_of_uint (Nat.to_uint i)).

Definition int_max_str_digits : nat := 4300.

(** The [ValueError] of [int()] for a string of [n] digits. *)
Definition ValueError_digits (n : nat) : exn :=
  Exception
    (py "Exceeds the limit (4300 digits) for integer string conversion: value has "
     ++ str_of_nat n
     ++ py " digits; use sys.set_int_max_str_digits() to increase the limit").

(** [int(s)] for a string [s] of decimal digits. *)
Definition int_call (s : str) : result Z :=
  if (int_max_str_digits <? length s)%nat
  then Raise (ValueError_digits (length s))
  else Return (int s).

Definition extract_constraints_call (query : str) : result Constraints.t :=
  let max_time_match := re_search max_time_pattern (lower query) in
  max_duration ←
    match max_time_match with
    | Some m => n ← int_call (group m 2); mret (Some n)
    | None => mret None
    end;
  duration ←
    match re_search time_pattern query, max_time_match with
    | Some m, None => n ← int_call (group m 1); mret (Some n)
    | _, _ => mret None
    end;
  let found_skills :=
    List.filter (fun skill => matched (re_search (skill_pattern skill) (lower query)))
                tech_skills in
  let found_types :=
    List.filter (fun test_type => matched (re_search (kind_pattern test_type) (lower query)))
                test_types in
  mret {| Constraints.max_duration := max_duration;
          Constraints.duration := duration;
          Constraints.skills := if_any found_skills;
          Constraints.test_types := if_any found_types |}.

(** The condition of the comprehensions of the duration stage, for one
    record. *)
Definition duration_test_call (cmp : Z -> Z -> bool) (bound : Z)
    (a : Assessment.t) : result bool :=
  match Assessment.duration a with
  | Some d =>
      match re_search number_pattern d with
      | Some m => n ← int_call (group m 1); mret (cmp n bound)
      | None => mret false
      end
  | None => mret false
  end.

(** [[a for a in l if test(a)]], for a test that may raise. *)
Fixpoint comprehension_call (test : Assessment.t -> result bool)
    (l : list Assessment.t) : result (list Assessment.t) :=
  match l with
  | [] => mret []
  | a :: l' =>
      passes ← test a;
      rest ← comprehension_call test l';
      mret (if passes : bool then a :: rest else rest)
  end.

Definition duration_stage_call (constraints : Constraints.t)
    (filtered : list Assessment.t) : result (list Assessment.t) :=
  match Constraints.max_duration constraints, Constraints.duration constraints with
  | Some bound, _ => comprehension_call (duration_test_call Z.leb bound) filtered
  | None, Some exact => comprehension_call (duration_test_call Z.eqb exact) filtered
  | None, None => mret filtered
  end.

Definition filter_assessments_call (assessments : list Assessment.t)
    (constraints : Constraints.t) : result (list Assessment.t) :=
  filtered ← duration_stage_call constraints assessments;
  mret (test_types_stage constraints (skills_stage constraints filtered)).

(** ** [QueryProcessor.process_query] *)

(** The slice [l[:stop]]. *)
Definition slice_to {A : Type} (l : list A) (stop : Z) : list A :=
  if 0 <=? stop then take (Z.to_nat stop) l
  else take (Z.to_nat (Z.of_nat (length l) + stop)) l.

(** Truth value of a list. *)
Definition truthy {A : Type} (l : list A) : bool :=
  match l with [] => false | _ :: _ => true end.

Definition process_query (embedding_engine : Engine) (query_text : str)
    (max_results : Z) : result (list Assessment.t) :=
  constraints ← extract_constraints_call query_text;
  search_results ← engine_search embedding_engine query_text 20;
  filtered_results ← filter_assessments_call search_results constraints;
  mret (if truthy filtered_results
        then slice_to filtered_results max_results
        else slice_to search_results max_results).

(** ** [filter_assessments] on list objects

    The same function with the Python lists as objects of a store, to
    account for which lists it creates and which it updates.  The records
    inside the lists are only read, so a list object holds them by value. *)

Abbreviation loc := nat (only parsing).

Abbreviation store := (gmap nat (list Assessment.t)) (only parsing).










(** ** Notions used to state the properties *)

(** The character before the position reached after reading [pre] from a
    position with [before] in front of it. *)
Definition char_before (before : option ascii) (pre : str) : option ascii :=
  match last pre with
  | Some c => Some c
  | None => before
  end.

(** The text [t] occurs in [s] between two word boundaries: what
    [rf"\b{token}\b"] looks for. *)
Definition word_occurs (t s : str) : Prop :=
  exists pre post,
    s = pre ++ t ++ post
    /\ at_boundary (last pre, t ++ post) = true
    /\ at_boundary (last (pre ++ t), post) = true.

(** The text [t] occurs in [s] as a whole word: no word character next to
    it on either side. *)
Definition whole_word_occurs (t s : str) : Prop :=
  exists pre post,
    s = pre ++ t ++ post
    /\ word_before (last pre, t ++ post) = false
    /\ word_after (last (pre ++ t), post) = false.

Fixpoint take_while (p : ascii -> bool) (s : str) : str :=
  match s with
  | c :: s' => if p c then c :: take_while p s' else []
  | [] => []
  end.

Fixpoint drop_while (p : ascii -> bool) (s : str) : str :=
  match s with
  | c :: s' => if p c then drop_while p s' else s
  | [] => []
  end.

(** The first run of decimal digits of a string, when it has a digit. *)
Definition first_number (s : str) : option str :=
  match drop_while (fun c => negb (is_digit c)) s with
  | [] => None
  | rest => Some (take_while is_digit rest)
  end.

(** What follows an occurrence is not a word character (or nothing). *)
Definition not_word_next (post : str) : Prop :=
  match post with
  | [] => True
  | c :: _ => is_word c = false
  end.


(** The duration of a record has a number, and its first number (the digits
    [ds], after a prefix without digit, up to the first character that is
    not a digit) is in relation [cmp] with [d]. *)
Definition first_duration (cmp : Z -> Z -> Prop) (d : Z) (a : Assessment.t) : Prop :=
  exists pre ds post,
    Assessment.duration a = Some (pre ++ ds ++ post)
    /\ Forall (fun c => is_digit c = false) pre
    /\ ds <> [] /\ Forall (fun c => is_digit c = true) ds
    /\ match post with [] => True | c :: _ => is_digit c = false end
    /\ cmp (int ds) d.

(** The duration of a record is absent or has no digit. *)
Definition no_duration (a : Assessment.t) : Prop :=
  match Assessment.duration a with
  | None => True
  | Some t => Forall (fun c => is_digit c = false) t
  end.

(** Sample records and constraints. *)
Definition sample (name duration : string) : Assessment.t :=
  {| Assessment.name := Some (py name);
     Assessment.url := None;
     Assessment.description := None;
     Assessment.duration := Some (py duration);
     Assessment.remote_testing := None;
     Assessment.adaptive_irt := None;
     Assessment.test_type := None |}.

Definition at_most (d : Z) : Constraints.t :=
  {| Constraints.max_duration := Some d;
     Constraints.duration := None;
     Constraints.skills := None;
     Constraints.test_types := None |}.

Definition with_skills (skills : list tech_skill) : Constraints.t :=
  {| Constraints.max_duration := None;
     Constraints.duration := None;
     Constraints.skills := Some skills;
     Constraints.test_types := None |}.

(** An index that fails to respond, an engine with a fixed answer and an
    engine whose [search] raises. *)
Definition unavailable : Collection :=
  {| query := fun _ _ => Raise (Exception (py "index unavailable")) |}.

Definition answering (records : list Assessment.t) : Engine :=
  {| engine_search := fun _ _ => Return records |}.

Definition raising (e : exn) : Engine :=
  {| engine_search := fun _ _ => Raise e |}.

(** The skill [k] is among the skills of a constraint set. *)
Definition returns_skill (c : Constraints.t) (k : tech_skill) : Prop :=
  match Constraints.skills c with
  | Some found => In k found
  | None => False
  end.


(** Scenario A of the specification: three candidates, and a store that
    holds them as its only list object. *)
Definition scenario_a : list Assessment.t :=
  [sample "Java fundamentals" "20 minutes";
   sample "Core Java" "45 minutes";
   sample "Java and SQL" "25 minutes"].


(** A record mentions one of the test types: the word of the type is a
    substring of its lower-cased test type, or occurs between word
    boundaries in its lower-cased description. *)
Definition names_type (types : list test_kind) (a : Assessment.t) : Prop :=
  exists t,
    In t types
    /\ ((exists pre post,
           lower (Assessment.get (Assessment.test_type a)) = pre ++ kind_string t ++ post)
        \/ word_occurs (kind_string t)
             (lower (Assessment.get (Assessment.description a)))).

(** The test type [t] is among the test types of a constraint set. *)
Definition returns_type (c : Constraints.t) (t : test_kind) : Prop :=
  match Constraints.test_types c with
  | Some found => In t found
  | None => False
  end.

(** The text [t] occurs in [s] with no word character before it and a word
    character right after it. *)
Definition symbol_occurs (t s : str) : Prop :=
  exists pre c post,
    s = pre ++ t ++ c :: post
    /\ word_before (last pre, t ++ c :: post) = false
    /\ is_word c = true.





(** The duration of a record, when it has one, has at most 4300
    characters. *)
Definition short_duration (a : Assessment.t) : Prop :=
  match Assessment.duration a with
  | Some d => (length d <= int_max_str_digits)%nat
  | None => True
  end.

(** A query with a bounded time of 4301 digits. *)
Definition long_query : str :=
  py "under " ++ repeat "1"%char 4301 ++ py " min".

(** From the cursor [k], reading the text [t] leads to the cursor [k']. *)
Definition reads (k : option ascii * list ascii) (t : str)
    (k' : option ascii * list ascii) : Prop :=
  k.2 = t ++ k'.2 /\ k'.1 = char_before k.1 t.

Definition all_digits (ds : str) : Prop := Forall (fun c => is_digit c = true) ds.

Definition all_spaces (ws : str) : Prop := Forall (fun c => is_space c = true) ws.

(** The words that introduce a bounded time. *)
Definition time_keywords : list str :=
  [py "less than"; py "max"; py "maximum"; py "under"; py "within"; py "up to"].

(** [s] has a bounded-time phrase for the number [d]: a keyword, optional
    white space, the digits of [d], optional white space, and ["min"]. *)
Definition bounded_time_phrase (d : Z) (s : str) : Prop :=
  exists pre kw ws1 ds ws2 post,
    s = pre ++ (kw ++ ws1 ++ ds ++ ws2 ++ py "min") ++ post
    /\ In kw time_keywords /\ all_spaces ws1
    /\ ds <> [] /\ all_digits ds /\ all_spaces ws2
    /\ int ds = d.

(** [s] has the digits of [d], optional white space, and ["minutes"]. *)
Definition minutes_phrase (d : Z) (s : str) : Prop :=
  exists pre ds ws post,
    s = pre ++ (ds ++ ws ++ py "minutes") ++ post
    /\ ds <> [] /\ all_digits ds /\ all_spaces ws
    /\ int ds = d.

(** ** [api.py]: the recommendation endpoint *)

(** [str.strip()] *)
Definition strip (s : str) : str :=
  rev (drop_while is_space (rev (drop_while is_space s))).

Module QueryRequest.
Record t : Type := Build {
  query : str;
  url : option str
}.
End QueryRequest.

Module AssessmentResponse.
Record t : Type := Build {
  name : str;
  url : str;
  remote_testing : str;
  adaptive_irt : str;
  duration : str;
  test_type : str
}.
End AssessmentResponse.

(** How a call of the endpoint ends: with a [RecommendResponse] (status
    200), with a returned [JSONResponse], with a raised [HTTPException], or
    with another exception that no handler of the endpoint catches. *)
Inductive outcome : Type :=
| RecommendResponse (recommendations : list AssessmentResponse.t)
| JSONResponse (status_code : Z) (detail : str)
| HTTPException (status_code : Z) (detail : str)
| Propagated (e : exn).

(** The text of an exception, [str(e)]. *)
Definition exn_text (e : exn) : str :=
  match e with
  | Exception what => what
  | BaseException what => what
  end.

(** [extract_text_from_url]; [fetch] is the body of its [try]: the request
    for the page and the cleaning of its text. *)
Definition extract_text_from_url (fetch : str -> result str) (url : str)
  : outcome + str :=
  match fetch url with
  | Return cleaned_text => inr cleaned_text
  | Raise (Exception what) => inl (HTTPException 400 (py "URL error: " ++ what))
  | Raise e => inl (Propagated e)
  end.

(** The comprehension that builds the response: [rec.get(key, default)] for
    each of the six fields. *)
Definition to_response (rec : Assessment.t) : AssessmentResponse.t :=
  {| AssessmentResponse.name := default (py "Unknown") (Assessment.name rec);
     AssessmentResponse.url := default (py "#") (Assessment.url rec);
     AssessmentResponse.remote_testing :=
       default (py "Unknown") (Assessment.remote_testing rec);
     AssessmentResponse.adaptive_irt :=
       default (py "Unknown") (Assessment.adaptive_irt rec);
     AssessmentResponse.duration := default (py "Unknown") (Assessment.duration rec);
     AssessmentResponse.test_type := default (py "Unknown") (Assessment.test_type rec) |}.

(** The query text after the optional text of the URL is appended. *)
Definition with_url_text (fetch : str -> result str) (request : QueryRequest.t)
  : outcome + str :=
  let query_text := strip (QueryRequest.query request) in
  match QueryRequest.url request with
  | Some ((_ :: _) as url) =>
      match extract_text_from_url fetch url with
      | inr url_text =>
          inr (if truthy query_text then query_text ++ py " " ++ url_text
               else url_text)
      | inl raised => inl raised
      end
  | _ => inr query_text
  end.

(** [recommend_assessments], with the engine of the module's
    [query_processor]. *)
Definition recommend_assessments (fetch : str -> result str)
    (embedding_engine : Engine) (request : QueryRequest.t) : outcome :=
  match with_url_text fetch request with
  | inl raised => raised
  | inr query_text =>
      if negb (truthy query_text) || (length query_text <? 3)%nat
      then HTTPException 400 (py "Query must be at least 3 characters long.")
      else
        match process_query embedding_engine query_text 10 with
        | Return recommendations =>
            if negb (truthy recommendations)
            then JSONResponse 404 (py "No relevant assessments found")
            else RecommendResponse (map to_response recommendations)
        | Raise (Exception _) => HTTPException 500 (py "Internal server error")
        | Raise e => Propagated e
        end
  end.

(** A request without URL, and a page fetcher that always fails. *)
Definition ask (query : string) : QueryRequest.t :=
  {| QueryRequest.query := py query; QueryRequest.url := None |}.

Definition offline : str -> result str :=
  fun _ => Raise (Exception (py "connection refused")).

(** ** [EmbeddingEngine.create_document_text] and [process_assessments] *)

Definition create_document_text (assessment : Assessment.t) : str :=
  let name := default (py "Unknown Name") (Assessment.name assessment) in
  let description :=
    default (py "No description available") (Assessment.description assessment) in
  let test_type := default (py "Unknown") (Assessment.test_type assessment) in
  let duration := default (py "Unknown") (Assessment.duration assessment) in
  name ++ py ". " ++ description ++ py " Type: " ++ test_type
       ++ py ". Duration: " ++ duration ++ py ".".

(** What the handler [except Exception] of [process_assessments] makes of
    the result of [collection.add]. *)
Definition caught {C : Type} (r : C * option exn) : C * option exn :=
  match r with
  | (collection, Some (Exception _)) => (collection, None)
  | _ => r
  end.

Section Indexing.
(** The collection of the vector store: its states, [collection.count()],
    and [collection.add(documents, ids, metadatas)], which gives the next
    state and the exception it raises, if any. *)
Variable Coll : Type.
Variable count : Coll -> nat.
Variable add : list str -> list str -> list Assessment.t -> Coll -> Coll * option exn.

(** [process_assessments]: the next state of the collection, and the
    exception that leaves the method, if any; its messages on standard
    output are left out. *)
Definition process_assessments (assessments : list Assessment.t)
    (collection : Coll) : Coll * option exn :=
  if negb (truthy assessments) then (collection, None)
  else if (0 <? count collection)%nat then (collection, None)
  else
    let ids := map str_of_nat (List.seq 0 (length assessments)) in
    let documents := map create_document_text assessments in
    let metadatas := assessments in
    if negb (truthy documents) || negb (truthy ids) || negb (truthy metadatas)
    then (collection, None)
    else caught (add documents ids metadatas collection).
End Indexing.

(** A collection held in memory: its entries are the triples it was given. *)
Definition memory_add (documents ids : list str) (metadatas : list Assessment.t)
    (collection : list (str * str * Assessment.t))
  : list (str * str * Assessment.t) * option exn :=
  if (length ids =? length documents)%nat && (length ids =? length metadatas)%nat
  then (collection ++ zip (zip ids documents) metadatas, None)
  else (collection, Some (Exception (py "unequal lengths"))).

(** ** [SHLScraper.scrape_catalog]: the fields of one assessment *)

(** [s.split(sep)] for a separator of one character. *)
Fixpoint split_on (sep : ascii) (s : str) : list str :=
  match s with
  | [] => [[]]
  | c :: s' =>
      if Ascii.eqb c sep then [] :: split_on sep s'
      else match split_on sep s' with
           | part :: parts => (c :: part) :: parts
           | [] => [[c]]
           end
  end.

(** [sep.join(parts)] *)
Fixpoint join (sep : str) (parts : list str) : str :=
  match parts with
  | [] => []
  | [part] => part
  | part :: parts' => part ++ sep ++ join sep parts'
  end.

(** [self.url] *)
Definition catalog_url : str :=
  py "https://www.shl.com/solutions/products/product-catalog/view/account-manager-solution/".

(** ["/".join(self.url.split("/")[:3])] *)
Definition base_url : str :=
  join (py "/") (slice_to (split_on "/"%char catalog_url) 3).

(** The URL stored for a link with a non-empty [href]. *)
Definition link_url (href : str) : str :=
  if starts_with (py "http") href then href
  else base_url ++ py "/" ++ drop_while (fun c => Ascii.eqb c "/"%char) href.

(** [any(term in text for term in terms)] *)
Definition any_in (terms : list str) (text : str) : bool :=
  existsb (fun term => contains term text) terms.

(** [r"(\d+\s*(minutes|min|m|hours|hr))"] *)
Definition scraped_duration_pattern : regex :=
  Grp 1 (seq [Rep1 is_digit; Rep is_space;
              Grp 2 (alt (text (py "minutes"))
                       [text (py "min"); text (py "m"); text (py "hours");
                        text (py "hr")])]).

(** [r"(?:type|category):\s*([^,\.]+)"] *)
Definition scraped_type_pattern : regex :=
  seq [alt (text (py "type")) [text (py "category")]; Lit ":"%char; Rep is_space;
       Grp 1 (Rep1 (fun c => negb (Ascii.eqb c ","%char || Ascii.eqb c "."%char)))].

(** The dict that [scrape_catalog] starts from for each element, as far as
    the loop over the features goes: its four text fields.  Its keys
    ["name"], ["url"] and ["description"] hold the value [None] until they
    are extracted; this record does not tell that from an absent key, and
    [apply_feature] reads none of the three. *)
Definition blank_assessment : Assessment.t :=
  {| Assessment.name := None;
     Assessment.url := None;
     Assessment.description := None;
     Assessment.duration := Some (py "Unknown");
     Assessment.remote_testing := Some (py "Unknown");
     Assessment.adaptive_irt := Some (py "Unknown");
     Assessment.test_type := Some (py "Unknown") |}.

Definition yes_or_no (text : str) : str :=
  if any_in [py "yes"; py "available"; py "supported"] text then py "Yes" else py "No".

Definition set_remote_testing (v : str) (a : Assessment.t) : Assessment.t :=
  {| Assessment.name := Assessment.name a; Assessment.url := Assessment.url a;
     Assessment.description := Assessment.description a;
     Assessment.duration := Assessment.duration a;
     Assessment.remote_testing := Some v;
     Assessment.adaptive_irt := Assessment.adaptive_irt a;
     Assessment.test_type := Assessment.test_type a |}.

Definition set_adaptive_irt (v : str) (a : Assessment.t) : Assessment.t :=
  {| Assessment.name := Assessment.name a; Assessment.url := Assessment.url a;
     Assessment.description := Assessment.description a;
     Assessment.duration := Assessment.duration a;
     Assessment.remote_testing := Assessment.remote_testing a;
     Assessment.adaptive_irt := Some v;
     Assessment.test_type := Assessment.test_type a |}.

Definition set_duration (v : str) (a : Assessment.t) : Assessment.t :=
  {| Assessment.name := Assessment.name a; Assessment.url := Assessment.url a;
     Assessment.description := Assessment.description a;
     Assessment.duration := Some v;
     Assessment.remote_testing := Assessment.remote_testing a;
     Assessment.adaptive_irt := Assessment.adaptive_irt a;
     Assessment.test_type := Assessment.test_type a |}.

Definition set_test_type (v : str) (a : Assessment.t) : Assessment.t :=
  {| Assessment.name := Assessment.name a; Assessment.url := Assessment.url a;
     Assessment.description := Assessment.description a;
     Assessment.duration := Assessment.duration a;
     Assessment.remote_testing := Assessment.remote_testing a;
     Assessment.adaptive_irt := Assessment.adaptive_irt a;
     Assessment.test_type := Some v |}.

(** The body of the loop [for feature in features], for the text
    [feature.text] of one feature. *)
Definition apply_feature (feature_text : str) (assessment : Assessment.t)
  : Assessment.t :=
  let text := lower (strip feature_text) in
  let assessment :=
    if any_in [py "remote testing"; py "remote"; py "online testing"] text
    then set_remote_testing (yes_or_no text) assessment else assessment in
  let assessment :=
    if any_in [py "adaptive"; py "irt"; py "item response"] text
    then set_adaptive_irt (yes_or_no text) assessment else assessment in
  let assessment :=
    if any_in [py "duration"; py "time"; py "minutes"] text
    then match re_search scraped_duration_pattern text with
         | Some m => set_duration (group m 1) assessment
         | None => assessment
         end
    else assessment in
  if any_in [py "type"; py "category"; py "assessment type"] text
  then match re_search scraped_type_pattern text with
       | Some m => set_test_type (strip (group m 1)) assessment
       | None => assessment
       end
  else if any_in [py "cognitive"; py "aptitude"; py "reasoning"; py "ability"] text
  then set_test_type (py "Cognitive Ability") assessment
  else if any_in [py "personality"; py "behavior"; py "trait"] text
  then set_test_type (py "Personality & Behavior") assessment
  else if any_in [py "coding"; py "technical"; py "programming"] text
  then set_test_type (py "Coding & Technical") assessment
  else if any_in [py "situation"; py "judgment"; py "skills"] text
  then set_test_type (py "Situational & Skills") assessment
  else assessment.

(** The loop over the features of an element. *)
Definition apply_features (feature_texts : list str) (assessment : Assessment.t)
  : Assessment.t :=
  fold_left (fun a feature_text => apply_feature feature_text a)
            feature_texts assessment.

(** One of the three values of a tri-state field. *)
Definition tri_state (v : option str) : Prop :=
  v = Some (py "Unknown") \/ v = Some (py "Yes") \/ v = Some (py "No").

(** ** [EvaluationMetrics]: recall and precision at [k] *)

(** A score: the float [0.0], or the float quotient [hits / n] of two
    counts. *)
Inductive score : Type :=
| Zero
| Quotient (hits n : nat).

(** [set(l)], as far as its size and its members go. *)
Definition as_set (l : list str) : list str := List.nodup (List.list_eq_dec ascii_dec) l.

Definition member (x : str) (l : list str) : bool :=
  if List.in_dec (List.list_eq_dec ascii_dec) x l then true else false.

(** [[pred["name"] for pred in predictions[:k]]]: a prediction without the
    key raises [KeyError]. *)
Fixpoint names_of (predictions : list Assessment.t) : result (list str) :=
  match predictions with
  | [] => Return []
  | pred :: rest =>
      match Assessment.name pred with
      | Some name => names ← names_of rest; mret (name :: names)
      | None => Raise (Exception (py "'name'"))
      end
  end.

(** [len(set(predicted_ids).intersection(relevant_ids))] *)
Definition count_hits (predicted_ids relevant_ids : list str) : nat :=
  length (List.filter (fun name => member name relevant_ids) (as_set predicted_ids)).

(** [calculate_recall_at_k]; [groundtruth] is the dict of the ground truth,
    as the function that looks a query id up. *)
Definition calculate_recall_at_k (groundtruth : str -> option (list str))
    (query_id : str) (predictions : list Assessment.t) (k : Z) : result score :=
  match groundtruth query_id with
  | None => Return Zero
  | Some relevant =>
      let relevant_ids := as_set relevant in
      predicted_ids ← names_of (slice_to predictions k);
      let hits := count_hits predicted_ids relevant_ids in
      mret (if truthy relevant_ids then Quotient hits (length relevant_ids)
            else Zero)
  end.

(** [calculate_precision_at_k] *)
Definition calculate_precision_at_k (groundtruth : str -> option (list str))
    (query_id : str) (predictions : list Assessment.t) (k : Z) : result score :=
  match groundtruth query_id with
  | None => Return Zero
  | Some relevant =>
      let relevant_ids := as_set relevant in
      predicted_ids ← names_of (slice_to predictions k);
      let hits := count_hits predicted_ids relevant_ids in
      mret (if truthy (slice_to predicted_ids k)
            then Quotient hits (length (slice_to predicted_ids k))
            else Zero)
  end.

(** A ground truth with one query. *)
Definition one_query_truth (query_id : str) : option (list str) :=
  if starts_with (py "query1") query_id && starts_with query_id (py "query1")
  then Some [py "Java fundamentals"; py "Java and SQL"; py "Java fundamentals"]
  else None.

(** ** The matcher on the patterns of the source *)

Lemma starts_with_spec (t s : str) :
  starts_with t s = true <-> exists post, s = t ++ post.
Proof.
  revert s; induction t as [|x t IH]; intros s; simpl.
  - split; [eauto | done].
  - destruct s as [|y s]; simpl.
    + split; [done | intros [post H]; discriminate H].
    + rewrite andb_true_iff, Ascii.eqb_eq, IH. split.
      * intros [-> [post ->]]. eauto.
      * intros [post H]. injection H as -> ->. eauto.
Qed.

Lemma starts_with_drop (t s : str) :
  starts_with t s = true -> s = t ++ drop (length t) s.
Proof.
  intros H. apply starts_with_spec in H as [post ->].
  by rewrite drop_app_length.
Qed.

Lemma char_before_cons (b : option ascii) (c : ascii) (t : str) :
  char_before b (c :: t) = char_before (Some c) t.
Proof.
  unfold char_before. destruct t as [|y t]; [done|].
  rewrite last_cons. by destruct (last (y :: t)).
Qed.

Lemma char_before_last (pre t : str) :
  char_before (last pre) t = last (pre ++ t).
Proof.
  unfold char_before. rewrite last_app. by destruct (last t).
Qed.

(** A literal text matches in one way: when the subject starts with it. *)
Lemma run_text (t : str) (k : cursor) (g : groups) :
  run (text t) k g =
  if starts_with t k.2
  then [((char_before k.1 t, drop (length t) k.2), g)]
  else [].
Proof.
  revert k; induction t as [|c t IH]; intros [b s].
  - simpl. by destruct s.
  - destruct t as [|c' t].
    + simpl. destruct s as [|x s]; [done|]. simpl.
      rewrite andb_comm. simpl. rewrite Ascii.eqb_sym.
      destruct (Ascii.eqb c x) eqn:E; [|done].
      apply Ascii.eqb_eq in E as ->. by destruct s.
    + change (text (c :: c' :: t)) with (Cat (Lit c) (text (c' :: t))).
      cbn [run]. destruct s as [|x s]; [done|].
      cbn [snd fst starts_with]. rewrite (Ascii.eqb_sym c x).
      destruct (Ascii.eqb x c) eqn:E; [|done].
      apply Ascii.eqb_eq in E as ->.
      cbn [flat_map andb]. rewrite IH, app_nil_r. cbn [fst snd].
      rewrite (char_before_cons b c (c' :: t)). reflexivity.
Qed.

(** [re.search] succeeds exactly when the pattern matches at some position
    of the subject. *)
Lemma search_from_matched (r : regex) (b : option ascii) (s : str) :
  matched (search_from r b s) = true <->
  exists pre post, s = pre ++ post /\ run r (char_before b pre, post) [] <> [].
Proof.
  revert b; induction s as [|c s IH]; intros b; cbn [search_from].
  - destruct (run r _ _) as [|[k g] tl] eqn:E.
    + split; [done|]. intros (pre & post & Hs & Hrun).
      symmetry in Hs. apply app_eq_nil in Hs as [-> ->].
      change (char_before b []) with b in Hrun. congruence.
    + split; [|done]. intros _. exists [], []. split; [done|].
      change (char_before b []) with b. congruence.
  - destruct (run r _ _) as [|[k g] tl] eqn:E.
    + rewrite IH. split.
      * intros (pre & post & -> & Hrun). exists (c :: pre), post.
        by rewrite char_before_cons.
      * intros (pre & post & Hs & Hrun). destruct pre as [|x pre].
        -- simpl in Hs. subst post.
           change (char_before b []) with b in Hrun. congruence.
        -- injection Hs as -> ->. exists pre, post.
           by rewrite char_before_cons in Hrun.
    + split; [|done]. intros _. exists [], (c :: s). split; [done|].
      change (char_before b []) with b. congruence.
Qed.

Lemma run_word_pattern (t : str) (k : cursor) (g : groups) :
  run (word_pattern t) k g <> [] <->
  at_boundary k = true /\ starts_with t k.2 = true
  /\ at_boundary (char_before k.1 t, drop (length t) k.2) = true.
Proof.
  unfold word_pattern. cbn [seq run].
  destruct (at_boundary k); cbn [flat_map];
    [|split; [done | intros [? _]; done]].
  rewrite app_nil_r, run_text. cbn [fst snd].
  destruct (starts_with t k.2); cbn [flat_map];
    [|split; [done | intros (_ & ? & _); done]].
  rewrite app_nil_r. cbn [fst snd].
  destruct (at_boundary _); [done|].
  split; [done | intros (_ & _ & ?); done].
Qed.

(** [re.search(rf"\b{token}\b", s)] finds the token between two word
    boundaries. *)
Lemma matched_word_pattern (t s : str) :
  matched (re_search (word_pattern t) s) = true <-> word_occurs t s.
Proof.
  unfold re_search, word_occurs. rewrite search_from_matched.
  assert (Hcb : forall pre, char_before None pre = last pre).
  { intros pre. unfold char_before. by destruct (last pre). }
  split.
  - intros (pre & post0 & -> & Hrun).
    apply run_word_pattern in Hrun as (Hb1 & Hst & Hb2). cbn [fst snd] in *.
    rewrite Hcb in Hb1, Hb2. rewrite char_before_last in Hb2.
    apply starts_with_drop in Hst. rewrite Hst in Hb1 |- *.
    by exists pre, (drop (length t) post0).
  - intros (pre & post & -> & Hb1 & Hb2). exists pre, (t ++ post). split; [done|].
    apply run_word_pattern. cbn [fst snd].
    rewrite Hcb, char_before_last, drop_app_length. split_and!; [done| |done].
    apply starts_with_spec. eauto.
Qed.

(** For a token that begins and ends with a word character, the two
    boundaries say that the token stands as a whole word. *)
Lemma word_occurs_whole (t s : str) (c1 c2 : ascii) :
  head t = Some c1 -> is_word c1 = true ->
  last t = Some c2 -> is_word c2 = true ->
  word_occurs t s <-> whole_word_occurs t s.
Proof.
  intros Hh Hw1 Hl Hw2. unfold word_occurs, whole_word_occurs.
  assert (Ha : forall pre post,
             at_boundary (last pre, t ++ post) = negb (word_before (last pre, t ++ post))).
  { intros pre post. unfold at_boundary, word_after. cbn [snd].
    destruct t as [|x t]; [done|]. injection Hh as ->. cbn. rewrite Hw1.
    by destruct (word_before _). }
  assert (Hb : forall pre post,
             at_boundary (last (pre ++ t), post) = negb (word_after (last (pre ++ t), post))).
  { intros pre post. unfold at_boundary, word_before. cbn [fst].
    rewrite last_app, Hl, Hw2. done. }
  split; intros (pre & post & -> & H1 & H2); exists pre, post;
    rewrite Ha, Hb in *; split_and!; try done.
  - by apply negb_true_iff.
  - by apply negb_true_iff.
  - by apply negb_true_iff.
  - by apply negb_true_iff.
Qed.

(** *** The number pattern [(\d+)] *)

Lemma take_drop_while (p : ascii -> bool) (s : str) :
  s = take_while p s ++ drop_while p s.
Proof.
  induction s as [|c s IH]; [done|]. simpl. destruct (p c); [|done].
  simpl. by rewrite <- IH.
Qed.

Lemma take_while_all (p : ascii -> bool) (s : str) :
  Forall (fun c => p c = true) (take_while p s).
Proof.
  induction s as [|c s IH]; simpl; [constructor|].
  destruct (p c) eqn:E; by constructor.
Qed.

Lemma drop_while_head (p : ascii -> bool) (s : str) :
  match drop_while p s with
  | [] => True
  | c :: _ => p c = false
  end.
Proof.
  induction s as [|c s IH]; simpl; [done|].
  destruct (p c) eqn:E; [done|]. exact E.
Qed.

Lemma take_length_drop_while (p : ascii -> bool) (s : str) :
  take (length s - length (drop_while p s)) s = take_while p s.
Proof.
  rewrite (take_drop_while p s) at 1 3.
  rewrite length_app, Nat.add_sub, take_app_length. done.
Qed.

Lemma drop_while_length (p : ascii -> bool) (s : str) :
  (length (drop_while p s) <= length s)%nat.
Proof.
  induction s as [|c s IH]; simpl; [done|]. destruct (p c); simpl; lia.
Qed.

(** The repetition is greedy: its first way stops where the class stops. *)
Lemma rep_runs_first (p : ascii -> bool) (b : option ascii) (s : str) :
  exists b' tl, rep_runs p b s = (b', drop_while p s) :: tl.
Proof.
  revert b; induction s as [|c s IH]; intros b; simpl; [by eauto|].
  destruct (p c); [|by eauto].
  destruct (IH (Some c)) as (b' & tl & ->). simpl. eauto.
Qed.

Lemma run_number_pattern (b : option ascii) (s : str) :
  match s with
  | c :: s' =>
      if is_digit c
      then exists k tl,
          run number_pattern (b, s) [] =
          (k, [(1%nat, c :: take_while is_digit s')]) :: tl
      else run number_pattern (b, s) [] = []
  | [] => run number_pattern (b, s) [] = []
  end.
Proof.
  destruct s as [|c s']; [done|].
  unfold number_pattern, Rep1. cbn [run fst snd].
  destruct (is_digit c) eqn:E; [|done]. cbn [flat_map run fst snd].
  destruct (rep_runs_first is_digit (Some c) s') as (b' & tl & ->).
  rewrite app_nil_r. cbn [map fst snd]. eexists _, _. f_equal. f_equal. f_equal.
  unfold consumed. cbn [fst snd length].
  rewrite Nat.sub_succ_l by apply drop_while_length.
  cbn [take]. by rewrite take_length_drop_while.
Qed.

(** [re.search(r"(\d+)", s)] captures the first run of digits of [s]. *)
Lemma search_number (s : str) :
  re_search number_pattern s = (fun ds => [(1%nat, ds)]) <$> first_number s.
Proof.
  unfold re_search. generalize (@None ascii) as b.
  induction s as [|c s IH]; intros b.
  - cbn [search_from]. by rewrite (run_number_pattern b []).
  - cbn [search_from]. pose proof (run_number_pattern b (c :: s)) as H. cbv beta iota in H.
    unfold first_number. cbn [drop_while take_while].
    destruct (is_digit c) eqn:E; cbn [negb].
    + destruct H as (k & tl & ->). cbn [take_while]. by rewrite E.
    + rewrite H. apply IH.
Qed.

Lemma first_number_None (s : str) :
  first_number s = None <-> Forall (fun c => is_digit c = false) s.
Proof.
  unfold first_number. induction s as [|c s IH]; cbn [drop_while].
  - split; [constructor | done].
  - destruct (is_digit c) eqn:E; cbn [negb].
    + split; [done|]. intros H. apply Forall_cons in H as [H _]. congruence.
    + rewrite IH. split; [by constructor | by intros [_ ?]%Forall_cons].
Qed.

Lemma first_number_Some (s ds : str) :
  first_number s = Some ds ->
  exists pre post,
    s = pre ++ ds ++ post
    /\ Forall (fun c => is_digit c = false) pre
    /\ ds <> [] /\ Forall (fun c => is_digit c = true) ds
    /\ match post with [] => True | c :: _ => is_digit c = false end.
Proof.
  unfold first_number. intros H.
  pose proof (take_drop_while (fun c => negb (is_digit c)) s) as Hs.
  pose proof (take_while_all (fun c => negb (is_digit c)) s) as Hpre.
  pose proof (drop_while_head (fun c => negb (is_digit c)) s) as Hd.
  destruct (drop_while _ s) as [|d rest] eqn:E; [done|].
  injection H as <-.
  exists (take_while (fun c => negb (is_digit c)) s),
         (drop_while is_digit (d :: rest)).
  apply negb_false_iff in Hd. split_and!.
  - rewrite Hs at 1. f_equal. exact (take_drop_while is_digit (d :: rest)).
  - eapply Forall_impl; [exact Hpre|]. intros c. by rewrite negb_true_iff.
  - by rewrite Hd.
  - exact (take_while_all is_digit (d :: rest)).
  - apply drop_while_head.
Qed.

(** ** The stages of the filter *)

Lemma filter_sublist {A : Type} (f : A -> bool) (l : list A) :
  List.filter f l `sublist_of` l.
Proof.
  induction l as [|x l IH]; simpl; [done|].
  destruct (f x); by constructor.
Qed.

Lemma replace_if_any_nonempty {A : Type} (matches filtered : list A) :
  filtered <> [] -> replace_if_any matches filtered <> [].
Proof. by destruct matches. Qed.

Lemma replace_if_any_sublist {A : Type} (matches filtered : list A) :
  matches `sublist_of` filtered ->
  replace_if_any matches filtered `sublist_of` filtered.
Proof. by destruct matches. Qed.

Lemma duration_stage_sublist (c : Constraints.t) (l : list Assessment.t) :
  duration_stage c l `sublist_of` l.
Proof.
  unfold duration_stage.
  destruct (Constraints.max_duration c), (Constraints.duration c);
    auto using filter_sublist.
Qed.

Lemma skills_stage_sublist (c : Constraints.t) (l : list Assessment.t) :
  skills_stage c l `sublist_of` l.
Proof.
  unfold skills_stage. destruct (Constraints.skills c) as [[|k ks]|]; [done| |done].
  apply replace_if_any_sublist, filter_sublist.
Qed.

Lemma test_types_stage_sublist (c : Constraints.t) (l : list Assessment.t) :
  test_types_stage c l `sublist_of` l.
Proof.
  unfold test_types_stage.
  destruct (Constraints.test_types c) as [[|k ks]|]; [done| |done].
  apply replace_if_any_sublist, filter_sublist.
Qed.

Lemma filter_assessments_sublist (l : list Assessment.t) (c : Constraints.t) :
  filter_assessments l c `sublist_of` l.
Proof.
  unfold filter_assessments.
  etrans; [apply test_types_stage_sublist|].
  etrans; [apply skills_stage_sublist|]. apply duration_stage_sublist.
Qed.

Lemma skills_stage_nonempty (c : Constraints.t) (l : list Assessment.t) :
  l <> [] -> skills_stage c l <> [].
Proof.
  unfold skills_stage. destruct (Constraints.skills c) as [[|k ks]|]; try done.
  apply replace_if_any_nonempty.
Qed.

Lemma test_types_stage_nonempty (c : Constraints.t) (l : list Assessment.t) :
  l <> [] -> test_types_stage c l <> [].
Proof.
  unfold test_types_stage.
  destruct (Constraints.test_types c) as [[|k ks]|]; try done.
  apply replace_if_any_nonempty.
Qed.

Lemma stage_of_nil (c : Constraints.t) :
  skills_stage c [] = [] /\ test_types_stage c [] = [].
Proof.
  unfold skills_stage, test_types_stage.
  by destruct (Constraints.skills c) as [[|? ?]|],
              (Constraints.test_types c) as [[|? ?]|].
Qed.

(** The test of the duration stage, read on the text of the duration. *)
Lemma duration_test_true (cmp : Z -> Z -> bool) (d : Z) (a : Assessment.t) :
  duration_test cmp d a = true ->
  first_duration (fun x y => cmp x y = true) d a.
Proof.
  unfold duration_test, first_duration.
  destruct (Assessment.duration a) as [t|]; [|done].
  rewrite search_number. destruct (first_number t) as [ds|] eqn:E; [|done].
  cbn [fmap option_fmap option_map group Nat.eqb]. intros Hcmp.
  apply first_number_Some in E as (pre & post & -> & H1 & H2 & H3 & H4).
  by exists pre, ds, post.
Qed.

Lemma duration_test_no_duration (cmp : Z -> Z -> bool) (d : Z) (a : Assessment.t) :
  no_duration a -> duration_test cmp d a = false.
Proof.
  unfold duration_test, no_duration.
  destruct (Assessment.duration a) as [t|]; [|done].
  intros H. apply first_number_None in H. by rewrite search_number, H.
Qed.


(** For the eight skills written with letters only, the pattern finds the
    skill as a whole word. *)
Lemma skill_whole_word (k : tech_skill) (s : str) :
  k <> c_plus_plus -> k <> c_sharp ->
  word_occurs (skill_text k) s <-> whole_word_occurs (skill_text k) s.
Proof.
  intros H1 H2.
  destruct k; try done;
    (eapply word_occurs_whole; [reflexivity | reflexivity | reflexivity | reflexivity]).
Qed.

(** C1 (as the code has it): the skills stage and the test-type stage never
    empty a non-empty working set, so on a non-empty list of records
    [filter_assessments] returns the empty list exactly when the duration
    stage, which has no fallback, keeps no record; in particular the result
    is non-empty when neither [max_duration] nor [duration] is set. *)
Theorem filter_assessments_nonempty (l : list Assessment.t) (c : Constraints.t) :
  l <> [] ->
  (forall w, w <> [] -> skills_stage c w <> [] /\ test_types_stage c w <> [])
  /\ (filter_assessments l c = [] <-> duration_stage c l = [])
  /\ (Constraints.max_duration c = None -> Constraints.duration c = None ->
      filter_assessments l c <> []).
Proof.
  intros Hl.
  assert (Hiff : filter_assessments l c = [] <-> duration_stage c l = []).
  { unfold filter_assessments. split.
    - intros H. destruct (decide (duration_stage c l = [])) as [|Hd]; [done|].
      by apply (skills_stage_nonempty c), (test_types_stage_nonempty c) in Hd.
    - intros ->. destruct (stage_of_nil c) as [-> ->]. done. }
  split_and!.
  - intros w Hw. split;
      [by apply skills_stage_nonempty | by apply test_types_stage_nonempty].
  - exact Hiff.
  - intros H1 H2. rewrite Hiff. unfold duration_stage. by rewrite H1, H2.
Qed.

Lemma filter_assessments_nonempty_witness :
  [sample "Java basics" "45 minutes"] <> []
  /\ (filter_assessments [sample "Java basics" "45 minutes"] (with_skills [python]) = []
      <-> duration_stage (with_skills [python]) [sample "Java basics" "45 minutes"] = []).
Proof.
  split; [done|].
  apply (filter_assessments_nonempty
           [sample "Java basics" "45 minutes"] (with_skills [python])).
  done.
Defined.

(** C1 as stated fails: the duration stage can remove every record of a
    non-empty list, and [filter_assessments] then returns the empty list. *)
Lemma filter_assessments_can_empty :
  [sample "Numerical reasoning" "45 minutes"] <> []
  /\ filter_assessments [sample "Numerical reasoning" "45 minutes"] (at_most 30) = [].
Proof. split; [done | vm_compute; reflexivity]. Qed.

(** C6: with [max_duration = d], every record that the duration stage keeps
    has a duration whose first number is at most [d], a record whose
    duration is absent or has no number is not kept, and the same bound
    holds for every record that [filter_assessments] returns. *)
Theorem duration_stage_bound (l : list Assessment.t) (c : Constraints.t) (d : Z) :
  Constraints.max_duration c = Some d ->
  (forall a, In a (duration_stage c l) -> first_duration Z.le d a)
  /\ (forall a, no_duration a -> ~ In a (duration_stage c l))
  /\ (forall a, In a (filter_assessments l c) -> first_duration Z.le d a).
Proof.
  intros Hd.
  assert (Hstage : duration_stage c l = List.filter (duration_test Z.leb d) l).
  { unfold duration_stage. by rewrite Hd. }
  assert (Hkept : forall a, In a (duration_stage c l) -> first_duration Z.le d a).
  { intros a Ha. rewrite Hstage in Ha. apply filter_In in Ha as [_ Ha].
    apply duration_test_true in Ha.
    destruct Ha as (pre & ds & post & H1 & H2 & H3 & H4 & H5 & H6).
    exists pre, ds, post. split_and!; try done. by apply Z.leb_le. }
  split_and!.
  - exact Hkept.
  - intros a Hno Ha. rewrite Hstage in Ha. apply filter_In in Ha as [_ Ha].
    by rewrite duration_test_no_duration in Ha.
  - intros a Ha. apply Hkept. apply list_elem_of_In.
    apply list_elem_of_In in Ha. eapply elem_of_sublist; [exact Ha|].
    unfold filter_assessments.
    etrans; [apply test_types_stage_sublist|]. apply skills_stage_sublist.
Qed.

Lemma duration_stage_bound_witness :
  Constraints.max_duration (at_most 30) = Some 30
  /\ forall a,
      In a (duration_stage (at_most 30)
              [sample "A" "20 minutes"; sample "B" "45 minutes"; sample "C" "n/a"]) ->
      first_duration Z.le 30 a.
Proof.
  split; [reflexivity|].
  apply (duration_stage_bound
           [sample "A" "20 minutes"; sample "B" "45 minutes"; sample "C" "n/a"]
           (at_most 30) 30).
  reflexivity.
Defined.

(** ** The orchestrator *)

Lemma slice_to_nonneg {A : Type} (l : list A) (stop : Z) :
  0 <= stop -> slice_to l stop = take (Z.to_nat stop) l.
Proof. intros H. unfold slice_to. by rewrite (proj2 (Z.leb_le 0 stop) H). Qed.

Lemma take_nil_iff {A : Type} (n : nat) (l : list A) :
  (0 < n)%nat -> take n l = [] <-> l = [].
Proof. intros Hn. destruct n; [lia|]. by destruct l. Qed.

(** *** What the two methods return, when they return *)

Lemma int_call_Return (s : str) (n : Z) : int_call s = Return n -> n = int s.
Proof. unfold int_call. destruct (_ <? _)%nat; [done|]. by intros [= <-]. Qed.

Lemma int_call_short (s : str) :
  (length s <= int_max_str_digits)%nat -> int_call s = Return (int s).
Proof.
  intros H. unfold int_call. apply Nat.ltb_ge in H. by rewrite H.
Qed.

Lemma extract_constraints_call_Return (q : str) (c : Constraints.t) :
  extract_constraints_call q = Return c -> c = extract_constraints q.
Proof.
  unfold extract_constraints_call, extract_constraints, mbind, result_bind,
    mret, result_ret.
  destruct (re_search max_time_pattern (lower q)) as [m|].
  - destruct (int_call (group m 2)) as [n|e] eqn:E; [|done].
    apply int_call_Return in E as ->.
    destruct (re_search time_pattern q); by intros [= <-].
  - destruct (re_search time_pattern q) as [m|]; [|by intros [= <-]].
    destruct (int_call (group m 1)) as [n|e] eqn:E; [|done].
    apply int_call_Return in E as ->. by intros [= <-].
Qed.

(** A query without constraint reaches no conversion. *)
Lemma extract_constraints_call_empty (q : str) :
  extract_constraints q = Constraints.empty ->
  extract_constraints_call q = Return Constraints.empty.
Proof.
  unfold extract_constraints_call, extract_constraints, Constraints.empty,
    mbind, result_bind, mret, result_ret.
  destruct (re_search max_time_pattern (lower q)) as [m|]; [done|].
  destruct (re_search time_pattern q) as [m|]; [done|].
  intros H. by f_equal.
Qed.

Lemma duration_test_call_Return (cmp : Z -> Z -> bool) (bound : Z)
    (a : Assessment.t) (b : bool) :
  duration_test_call cmp bound a = Return b -> b = duration_test cmp bound a.
Proof.
  unfold duration_test_call, duration_test, mbind, result_bind, mret, result_ret.
  destruct (Assessment.duration a) as [d|]; [|by intros [= <-]].
  destruct (re_search number_pattern d) as [m|]; [|by intros [= <-]].
  destruct (int_call (group m 1)) as [n|e] eqn:E; [|done].
  apply int_call_Return in E as ->. by intros [= <-].
Qed.

Lemma comprehension_call_Return (cmp : Z -> Z -> bool) (bound : Z)
    (l out : list Assessment.t) :
  comprehension_call (duration_test_call cmp bound) l = Return out ->
  out = List.filter (duration_test cmp bound) l.
Proof.
  revert out; induction l as [|a l IH]; intros out; cbn [comprehension_call List.filter].
  - by intros [= <-].
  - unfold mbind, result_bind, mret, result_ret.
    destruct (duration_test_call cmp bound a) as [b|e] eqn:E; [|done].
    apply duration_test_call_Return in E as ->.
    destruct (comprehension_call _ l) as [rest|e]; [|done].
    rewrite (IH rest eq_refl). by intros [= <-].
Qed.

Lemma duration_stage_call_Return (c : Constraints.t) (l out : list Assessment.t) :
  duration_stage_call c l = Return out -> out = duration_stage c l.
Proof.
  unfold duration_stage_call, duration_stage.
  destruct (Constraints.max_duration c) as [bound|];
    [|destruct (Constraints.duration c) as [exact|]].
  - apply comprehension_call_Return.
  - apply comprehension_call_Return.
  - by intros [= <-].
Qed.

Lemma filter_assessments_call_Return (l : list Assessment.t) (c : Constraints.t)
    (f : list Assessment.t) :
  filter_assessments_call l c = Return f -> f = filter_assessments l c.
Proof.
  unfold filter_assessments_call, filter_assessments, mbind, result_bind,
    mret, result_ret.
  destruct (duration_stage_call c l) as [d|e] eqn:E; [|done].
  apply duration_stage_call_Return in E as ->. by intros [= <-].
Qed.

Lemma filter_assessments_call_nil (c : Constraints.t) :
  filter_assessments_call [] c = Return [].
Proof.
  unfold filter_assessments_call, duration_stage_call.
  destruct (stage_of_nil c) as [Hs Ht].
  destruct (Constraints.max_duration c), (Constraints.duration c);
    cbn; by rewrite Hs, Ht.
Qed.

(** Without a constraint on the duration the filter reaches no
    conversion. *)
Lemma filter_assessments_call_unbounded (l : list Assessment.t) (c : Constraints.t) :
  Constraints.max_duration c = None -> Constraints.duration c = None ->
  filter_assessments_call l c = Return (filter_assessments l c).
Proof.
  intros H1 H2.
  unfold filter_assessments_call, filter_assessments, duration_stage_call,
    duration_stage.
  by rewrite H1, H2.
Qed.

Lemma process_query_return (engine : Engine) (q : str) (m : Z)
    (c : Constraints.t) (sr f : list Assessment.t) :
  extract_constraints_call q = Return c ->
  engine_search engine q 20 = Return sr ->
  filter_assessments_call sr c = Return f ->
  process_query engine q m =
  Return (if truthy f then slice_to f m else slice_to sr m).
Proof.
  intros Hc Hs Hf. unfold process_query, mbind, result_bind.
  rewrite Hc. cbv beta iota. rewrite Hs. cbv beta iota. by rewrite Hf.
Qed.

Lemma process_query_Return_inv (engine : Engine) (q : str) (m : Z)
    (out : list Assessment.t) :
  process_query engine q m = Return out ->
  exists c sr f,
    extract_constraints_call q = Return c
    /\ engine_search engine q 20 = Return sr
    /\ filter_assessments_call sr c = Return f
    /\ out = if truthy f then slice_to f m else slice_to sr m.
Proof.
  unfold process_query, mbind, result_bind, mret, result_ret.
  destruct (extract_constraints_call q) as [c|e] eqn:Ec; [|done].
  destruct (engine_search engine q 20) as [sr|e] eqn:Es; [|done].
  destruct (filter_assessments_call sr c) as [f|e] eqn:Ef; [|done].
  intros [= <-]. exists c, sr, f. by repeat split.
Qed.

(** C3 (as the code has it): for a query on which [extract_constraints]
    returns, when the query of the index raises an exception,
    [EmbeddingEngine.search] catches it and answers the empty list, so
    [process_query] returns the empty list and nothing reaches its caller;
    [process_query] itself has no handler, and an error raised by the
    [search] of its engine leaves it unchanged. *)
Theorem index_failure_absorbed_by_search (collection : Collection)
    (engine : Engine) (q what : str) (m : Z) (e : exn) (c : Constraints.t) :
  extract_constraints_call q = Return c ->
  query collection [q] 20 = Raise (Exception what) ->
  engine_search engine q 20 = Raise e ->
  process_query (EmbeddingEngine collection) q m = Return []
  /\ process_query engine q m = Raise e.
Proof.
  intros Hc Hq He. split.
  - rewrite (process_query_return _ q m c [] []).
    + cbn [truthy]. unfold slice_to. destruct (0 <=? m); by rewrite take_nil.
    + done.
    + unfold EmbeddingEngine, search. cbn [engine_search]. by rewrite Hq.
    + apply filter_assessments_call_nil.
  - unfold process_query, mbind, result_bind. rewrite Hc. cbv beta iota.
    by rewrite He.
Qed.

Lemma index_failure_absorbed_by_search_witness :
  process_query (EmbeddingEngine unavailable) (py "java developer") 10 = Return []
  /\ process_query (raising (BaseException (py "interrupted")))
       (py "java developer") 10
     = Raise (BaseException (py "interrupted")).
Proof.
  apply (index_failure_absorbed_by_search
           unavailable (raising (BaseException (py "interrupted")))
           (py "java developer") (py "index unavailable") 10
           (BaseException (py "interrupted"))
           (with_skills [java]));
    reflexivity.
Defined.

(** C3 as stated fails: the index raises, and [process_query] returns the
    empty list instead of passing the error on. *)
Lemma index_failure_not_propagated :
  query unavailable [py "java developer"] 20
  = Raise (Exception (py "index unavailable"))
  /\ process_query (EmbeddingEngine unavailable) (py "java developer") 10
     = Return [].
Proof. split; reflexivity. Qed.

(** C4 (as the code has it): for [max_results >= 1], when
    [extract_constraints] and [filter_assessments] return (no number of
    more than 4300 digits reaches [int()]), [process_query] returns, and
    returns the empty list exactly when the search returned the empty list;
    when the filter empties a non-empty search result it returns the first
    [max_results] records of that result. *)
Theorem process_query_empty_iff (engine : Engine) (q : str) (m : Z)
    (c : Constraints.t) (sr f : list Assessment.t) :
  1 <= m ->
  extract_constraints_call q = Return c ->
  engine_search engine q 20 = Return sr ->
  filter_assessments_call sr c = Return f ->
  exists out,
    process_query engine q m = Return out
    /\ (out = [] <-> sr = [])
    /\ (sr <> [] -> f = [] -> out = take (Z.to_nat m) sr).
Proof.
  intros Hm Hc Hs Hf. eexists. split; [by eapply process_query_return|].
  rewrite !slice_to_nonneg by lia.
  pose proof (filter_assessments_call_Return sr c f Hf) as Hpure.
  pose proof (filter_assessments_sublist sr c) as Hsub. rewrite <- Hpure in Hsub.
  destruct f as [|a f]; cbn [truthy].
  - split; [|done]. apply take_nil_iff. lia.
  - split; [|done]. rewrite take_nil_iff by lia. split; [done|].
    intros ->. by apply sublist_nil_r in Hsub.
Qed.

Lemma process_query_empty_iff_witness :
  exists out,
    process_query (answering [sample "Numerical reasoning" "45 minutes";
                              sample "Verbal reasoning" "50 minutes"])
      (py "test under 30 minutes") 1 = Return out
    /\ (out = [] <->
        [sample "Numerical reasoning" "45 minutes";
         sample "Verbal reasoning" "50 minutes"] = [])
    /\ ([sample "Numerical reasoning" "45 minutes";
         sample "Verbal reasoning" "50 minutes"] <> [] ->
        @nil Assessment.t = [] ->
        out = take (Z.to_nat 1)
                [sample "Numerical reasoning" "45 minutes";
                 sample "Verbal reasoning" "50 minutes"]).
Proof.
  apply (process_query_empty_iff
           (answering [sample "Numerical reasoning" "45 minutes";
                       sample "Verbal reasoning" "50 minutes"])
           (py "test under 30 minutes") 1 (at_most 30)
           [sample "Numerical reasoning" "45 minutes";
            sample "Verbal reasoning" "50 minutes"] []);
    [lia | reflexivity | reflexivity | reflexivity].
Defined.

(** C4 as stated fails: the search returns the empty list, and
    [process_query] raises the [ValueError] of [int()] on a bounded time of
    4301 digits instead of returning the empty list. *)
Lemma process_query_empty_search_raises :
  engine_search (answering []) long_query 20 = Return []
  /\ process_query (answering []) long_query 1 = Raise (ValueError_digits 4301).
Proof. split; [reflexivity | vm_compute; reflexivity]. Qed.

(** C9 (as the code has it): for [max_results >= 1], when
    [extract_constraints] and [filter_assessments] return (no number of
    more than 4300 digits reaches [int()]), [process_query] returns,
    whatever the number of records the search returns, and returns at most
    [max_results] records. *)
Theorem process_query_at_most (engine : Engine) (q : str) (m : Z)
    (c : Constraints.t) (sr f : list Assessment.t) :
  1 <= m ->
  extract_constraints_call q = Return c ->
  engine_search engine q 20 = Return sr ->
  filter_assessments_call sr c = Return f ->
  exists out,
    process_query engine q m = Return out
    /\ Z.of_nat (length out) <= m.
Proof.
  intros Hm Hc Hs Hf. eexists. split; [by eapply process_query_return|].
  rewrite !slice_to_nonneg by lia.
  destruct (truthy _); rewrite length_take; lia.
Qed.

Lemma process_query_at_most_witness :
  exists out,
    process_query (answering [sample "A" "20 minutes"; sample "B" "45 minutes";
                              sample "C" "25 minutes"])
      (py "generic skills test") 2 = Return out
    /\ Z.of_nat (length out) <= 2.
Proof.
  apply (process_query_at_most
           (answering [sample "A" "20 minutes"; sample "B" "45 minutes";
                       sample "C" "25 minutes"])
           (py "generic skills test") 2 Constraints.empty
           [sample "A" "20 minutes"; sample "B" "45 minutes";
            sample "C" "25 minutes"]
           [sample "A" "20 minutes"; sample "B" "45 minutes";
            sample "C" "25 minutes"]);
    [lia | reflexivity | reflexivity | reflexivity].
Defined.

(** C9 as stated fails: the search returns three records, fewer than the
    twenty asked for, and [process_query] raises the [ValueError] of
    [int()] on a bounded time of 4301 digits. *)
Lemma process_query_short_search_raises :
  engine_search (answering scenario_a) long_query 20 = Return scenario_a
  /\ (length scenario_a < 20)%nat
  /\ process_query (answering scenario_a) long_query 10
     = Raise (ValueError_digits 4301).
Proof.
  split_and!; [reflexivity | cbn; lia | vm_compute; reflexivity].
Qed.

(** ** The extractor *)

Lemma if_any_Some {A : Type} (l found : list A) :
  if_any l = Some found -> found = l.
Proof. destruct l; [done|]. by intros [= <-]. Qed.

(** The skills of the result are the entries of the vocabulary whose
    pattern is found in the lower-cased query. *)
Lemma found_skill (q : str) (k : tech_skill) :
  returns_skill (extract_constraints q) k <-> word_occurs (skill_text k) (lower q).
Proof.
  unfold returns_skill. cbn [extract_constraints Constraints.skills].
  unfold skill_pattern. rewrite <- matched_word_pattern.
  destruct (if_any _) as [found|] eqn:E.
  - apply if_any_Some in E as ->. rewrite filter_In.
    split; [by intros [_ ?]|]. intros H. split; [|done]. destruct k; cbn; tauto.
  - split; [done|]. intros H.
    assert (In k (List.filter
                    (fun skill => matched (re_search (word_pattern (skill_text skill))
                                             (lower q))) tech_skills)) as Hin.
    { apply filter_In. split; [|done]. destruct k; cbn; tauto. }
    unfold skill_pattern in E. by destruct (List.filter _ tech_skills).
Qed.

(** The boundary after ["c++"] needs a word character behind the second
    plus sign. *)
Lemma c_plus_plus_occurs (s : str) :
  word_occurs (py "c++") s ->
  exists pre c post, s = pre ++ py "c++" ++ c :: post /\ is_word c = true.
Proof.
  intros (pre & post & -> & _ & Hb).
  unfold at_boundary, word_before, word_after in Hb. cbn [fst snd] in Hb.
  rewrite last_app in Hb. cbn in Hb.
  destruct post as [|c post]; [done|]. by exists pre, c, post.
Qed.

(** Three of the four fields only depend on the lower-cased query. *)
Lemma extract_constraints_lower (q q' : str) :
  lower q = lower q' ->
  Constraints.max_duration (extract_constraints q)
  = Constraints.max_duration (extract_constraints q')
  /\ Constraints.skills (extract_constraints q)
     = Constraints.skills (extract_constraints q')
  /\ Constraints.test_types (extract_constraints q)
     = Constraints.test_types (extract_constraints q').
Proof.
  intros H. unfold extract_constraints.
  cbn [Constraints.max_duration Constraints.skills Constraints.test_types].
  by rewrite H.
Qed.

(** C2 (what the code does on the failing input): the bare ["<int> minutes"]
    pattern is searched in the query as it is written, not in its lower-cased
    form, so the two letter-case variants ["30 minutes"] and ["30 MINUTES"]
    of one query give different constraints. *)
Theorem extract_constraints_duration_case_sensitive :
  lower (py "30 MINUTES") = lower (py "30 minutes")
  /\ Constraints.duration (extract_constraints (py "30 minutes")) = Some 30
  /\ Constraints.duration (extract_constraints (py "30 MINUTES")) = None
  /\ extract_constraints (py "30 MINUTES") <> extract_constraints (py "30 minutes").
Proof. split_and!; [reflexivity | reflexivity | reflexivity | by vm_compute]. Qed.

(** C5: [max_duration] and [duration] are never both set; when the
    bounded-time pattern matches, [max_duration] is its number and
    [duration] is absent, also if the bare pattern matches too; a query
    with both ["under 20 minutes"] and ["30 minutes"] gives only
    [max_duration = 20]. *)
Theorem max_duration_excludes_duration (q : str) :
  (Constraints.max_duration (extract_constraints q) = None
   \/ Constraints.duration (extract_constraints q) = None)
  /\ (forall m,
        re_search max_time_pattern (lower q) = Some m ->
        Constraints.max_duration (extract_constraints q) = Some (int (group m 2))
        /\ Constraints.duration (extract_constraints q) = None)
  /\ extract_constraints (py "a test under 20 minutes, not 30 minutes")
     = at_most 20.
Proof.
  unfold extract_constraints.
  cbn [Constraints.max_duration Constraints.duration]. split_and!.
  - destruct (re_search max_time_pattern (lower q)); [right|by left].
    by destruct (re_search time_pattern q).
  - intros m ->. split; [done|]. by destruct (re_search time_pattern q).
  - reflexivity.
Qed.

(** C10: when every occurrence of ["c++"] in the lower-cased query is
    followed by a character that is not a word character, or by nothing,
    the entry for ["c++"] is not among the returned skills. *)
Theorem c_plus_plus_needs_word_after (q : str) :
  (forall pre post, lower q = pre ++ py "c++" ++ post -> not_word_next post) ->
  ~ returns_skill (extract_constraints q) c_plus_plus.
Proof.
  intros Hnext Hin. apply found_skill in Hin.
  apply c_plus_plus_occurs in Hin as (pre & c & post & Hq & Hw).
  specialize (Hnext pre (c :: post) Hq). cbn in Hnext. congruence.
Qed.

Lemma c_plus_plus_needs_word_after_witness :
  ~ returns_skill (extract_constraints (py "c++ developer")) c_plus_plus.
Proof.
  apply (c_plus_plus_needs_word_after (py "c++ developer")).
  intros pre post H.
  repeat (destruct pre as [|? pre];
          [ try discriminate H; injection H as <-; reflexivity
          | injection H as <- H ]).
  destruct pre; discriminate H.
Defined.

(** ** The filter on list objects *)










(** ** Further properties of the filter and of the orchestrator *)

Lemma filter_all_pass {A : Type} (f : A -> bool) (l : list A) :
  (forall a, In a l -> f a = true) -> List.filter f l = l.
Proof.
  induction l as [|x l IH]; intros H; cbn [List.filter]; [done|].
  rewrite (H x) by (by left). f_equal. apply IH. intros a Ha. apply H. by right.
Qed.

Lemma filter_none_pass {A : Type} (f : A -> bool) (l : list A) :
  (forall a, In a l -> f a = false) -> List.filter f l = [].
Proof.
  induction l as [|x l IH]; intros H; cbn [List.filter]; [done|].
  rewrite (H x) by (by left). apply IH. intros a Ha. apply H. by right.
Qed.

Lemma filter_nil_none {A : Type} (f : A -> bool) (l : list A) (a : A) :
  List.filter f l = [] -> In a l -> f a = false.
Proof.
  intros Hnil Ha. destruct (f a) eqn:E; [|done].
  assert (In a (List.filter f l)) as Hin by (by apply filter_In).
  by rewrite Hnil in Hin.
Qed.

(** A stage with fallback leaves alone every list drawn from its own
    output. *)
Lemma fallback_fixed {A : Type} (f : A -> bool) (l F : list A) :
  (forall a, In a F -> In a (replace_if_any (List.filter f l) l)) ->
  replace_if_any (List.filter f F) F = F.
Proof.
  intros H. destruct (List.filter f l) as [|x m] eqn:E; cbn [replace_if_any] in H.
  - rewrite filter_none_pass; [done|].
    intros a Ha. eapply filter_nil_none; eauto.
  - rewrite filter_all_pass; [by destruct F|].
    intros a Ha. apply H in Ha. rewrite <- E in Ha. by apply filter_In in Ha as [_ ?].
Qed.

Lemma sublist_In {A : Type} (l1 l2 : list A) (a : A) :
  l1 `sublist_of` l2 -> In a l1 -> In a l2.
Proof.
  intros Hs Ha. apply list_elem_of_In. apply list_elem_of_In in Ha.
  by eapply elem_of_sublist.
Qed.

Lemma duration_stage_fixed (c : Constraints.t) (l F : list Assessment.t) :
  (forall a, In a F -> In a (duration_stage c l)) -> duration_stage c F = F.
Proof.
  unfold duration_stage.
  destruct (Constraints.max_duration c) as [bound|];
    [|destruct (Constraints.duration c) as [exact|]]; intros H; [| |done].
  - apply filter_all_pass. intros a Ha. by apply H, filter_In in Ha as [_ ?].
  - apply filter_all_pass. intros a Ha. by apply H, filter_In in Ha as [_ ?].
Qed.

Lemma skills_stage_fixed (c : Constraints.t) (l F : list Assessment.t) :
  (forall a, In a F -> In a (skills_stage c l)) -> skills_stage c F = F.
Proof.
  unfold skills_stage. destruct (Constraints.skills c) as [[|k ks]|]; [done| |done].
  apply fallback_fixed.
Qed.

Lemma test_types_stage_fixed (c : Constraints.t) (l F : list Assessment.t) :
  (forall a, In a F -> In a (test_types_stage c l)) -> test_types_stage c F = F.
Proof.
  unfold test_types_stage.
  destruct (Constraints.test_types c) as [[|k ks]|]; [done| |done].
  apply fallback_fixed.
Qed.

(** X1: filtering a second time with the same constraints changes
    nothing. *)
Theorem filter_assessments_idempotent (l : list Assessment.t) (c : Constraints.t) :
  filter_assessments (filter_assessments l c) c = filter_assessments l c.
Proof.
  unfold filter_assessments at 1.
  set (D := duration_stage c l). set (S := skills_stage c D).
  assert (HFT : filter_assessments l c = test_types_stage c S) by done.
  rewrite (duration_stage_fixed c l).
  - rewrite (skills_stage_fixed c D).
    + apply (test_types_stage_fixed c S). intros a Ha. by rewrite <- HFT.
    + intros a Ha. rewrite HFT in Ha.
      eapply sublist_In; [apply test_types_stage_sublist | done].
  - intros a Ha. rewrite HFT in Ha.
    eapply sublist_In; [apply skills_stage_sublist|].
    eapply sublist_In; [apply test_types_stage_sublist | done].
Qed.

Lemma slice_to_sublist {A : Type} (l : list A) (stop : Z) :
  slice_to l stop `sublist_of` l.
Proof. unfold slice_to. destruct (0 <=? stop); apply sublist_take. Qed.

(** X2: whatever [max_results] is, when [process_query] returns, every
    record that it returns is one of the search results, and the records
    come in the order of the search results, none more often than there. *)
Theorem process_query_sublist (engine : Engine) (q : str) (m : Z)
    (sr out : list Assessment.t) :
  engine_search engine q 20 = Return sr ->
  process_query engine q m = Return out ->
  out `sublist_of` sr /\ (forall a, In a out -> In a sr).
Proof.
  intros Hs Hout.
  apply process_query_Return_inv in Hout as (c & sr' & f & Hc & Hs' & Hf & ->).
  rewrite Hs in Hs'. injection Hs' as <-.
  apply filter_assessments_call_Return in Hf as ->.
  assert (Hsub : (if truthy (filter_assessments sr c)
                  then slice_to (filter_assessments sr c) m
                  else slice_to sr m) `sublist_of` sr).
  { destruct (truthy _); [|apply slice_to_sublist].
    etrans; [apply slice_to_sublist | apply filter_assessments_sublist]. }
  split; [done|]. intros a. by apply sublist_In.
Qed.

Lemma process_query_sublist_witness :
  [sample "Java fundamentals" "20 minutes"] `sublist_of` scenario_a
  /\ (forall a, In a [sample "Java fundamentals" "20 minutes"] -> In a scenario_a).
Proof.
  apply (process_query_sublist (answering scenario_a)
           (py "Java developer assessment under 30 minutes") (-1) scenario_a
           [sample "Java fundamentals" "20 minutes"]);
    reflexivity.
Defined.

(** X3: for a query in which the extractor finds no constraint,
    [process_query] returns the slice [search_results[:max_results]] of the
    search results as they are. *)
Theorem process_query_unconstrained (engine : Engine) (q : str) (m : Z)
    (sr : list Assessment.t) :
  extract_constraints q = Constraints.empty ->
  engine_search engine q 20 = Return sr ->
  process_query engine q m = Return (slice_to sr m).
Proof.
  intros Hc Hs.
  rewrite (process_query_return engine q m Constraints.empty sr sr).
  - by destruct (truthy sr).
  - by apply extract_constraints_call_empty.
  - done.
  - by apply filter_assessments_call_unbounded.
Qed.

Lemma process_query_unconstrained_witness :
  process_query (answering scenario_a) (py "generic skills test") 2
  = Return [sample "Java fundamentals" "20 minutes"; sample "Core Java" "45 minutes"].
Proof.
  apply (process_query_unconstrained (answering scenario_a)
           (py "generic skills test") 2 scenario_a); reflexivity.
Defined.

(** *** The duration stage keeps exactly the records within the bound *)

Lemma drop_while_app_all (p : ascii -> bool) (pre rest : str) :
  Forall (fun c => p c = true) pre ->
  drop_while p (pre ++ rest) = drop_while p rest.
Proof.
  induction 1 as [|c pre Hc _ IH]; [done|]. cbn [app drop_while]. by rewrite Hc.
Qed.

Lemma take_while_app_all (p : ascii -> bool) (ds post : str) :
  Forall (fun c => p c = true) ds ->
  match post with [] => True | c :: _ => p c = false end ->
  take_while p (ds ++ post) = ds.
Proof.
  intros Hds Hpost. induction Hds as [|c ds Hc _ IH].
  - destruct post as [|c post]; [done|]. cbn. by rewrite Hpost.
  - cbn [app take_while]. by rewrite Hc, IH.
Qed.

Lemma first_number_intro (pre ds post : str) :
  Forall (fun c => is_digit c = false) pre ->
  ds <> [] -> Forall (fun c => is_digit c = true) ds ->
  match post with [] => True | c :: _ => is_digit c = false end ->
  first_number (pre ++ ds ++ post) = Some ds.
Proof.
  intros Hpre Hne Hds Hpost. unfold first_number.
  rewrite drop_while_app_all.
  2:{ eapply Forall_impl; [exact Hpre|]. intros c. by rewrite negb_true_iff. }
  destruct ds as [|d ds]; [done|].
  pose proof (Forall_inv Hds) as Hd. cbn [app drop_while]. rewrite Hd. cbn [negb].
  f_equal. by apply (take_while_app_all is_digit (d :: ds) post).
Qed.

Lemma duration_test_iff (cmp : Z -> Z -> bool) (d : Z) (a : Assessment.t) :
  duration_test cmp d a = true <->
  first_duration (fun x y => cmp x y = true) d a.
Proof.
  split; [apply duration_test_true|].
  intros (pre & ds & post & Hdur & H1 & H2 & H3 & H4 & H5).
  unfold duration_test. rewrite Hdur, search_number.
  rewrite (first_number_intro pre ds post) by done.
  cbn [fmap option_fmap option_map group Nat.eqb]. done.
Qed.

Lemma first_duration_impl (P Q : Z -> Z -> Prop) (d : Z) (a : Assessment.t) :
  (forall x, P x d -> Q x d) -> first_duration P d a -> first_duration Q d a.
Proof.
  intros HPQ (pre & ds & post & H0 & H1 & H2 & H3 & H4 & H5).
  exists pre, ds, post. split_and!; try done. by apply HPQ.
Qed.

(** X4: with [max_duration = d], the duration stage keeps exactly the
    records of its input whose duration has a number and whose first number
    is at most [d]: none of them is dropped. *)
Theorem duration_stage_max_exactly (l : list Assessment.t) (c : Constraints.t)
    (d : Z) :
  Constraints.max_duration c = Some d ->
  forall a, In a (duration_stage c l) <-> In a l /\ first_duration Z.le d a.
Proof.
  intros Hd a. unfold duration_stage. rewrite Hd, filter_In, duration_test_iff.
  split; intros [Hin H]; (split; [done|]); revert H; apply first_duration_impl;
    intros x; apply Z.leb_le.
Qed.

Lemma duration_stage_max_exactly_witness :
  In (sample "Java fundamentals" "20 minutes") (duration_stage (at_most 30) scenario_a)
  <-> In (sample "Java fundamentals" "20 minutes") scenario_a
      /\ first_duration Z.le 30 (sample "Java fundamentals" "20 minutes").
Proof.
  apply (duration_stage_max_exactly scenario_a (at_most 30) 30). reflexivity.
Defined.

(** X5: with [duration = d] and no [max_duration], the duration stage keeps
    exactly the records of its input whose duration has a number and whose
    first number is [d]. *)
Theorem duration_stage_exact_exactly (l : list Assessment.t) (c : Constraints.t)
    (d : Z) :
  Constraints.max_duration c = None ->
  Constraints.duration c = Some d ->
  forall a, In a (duration_stage c l) <-> In a l /\ first_duration eq d a.
Proof.
  intros Hm Hd a. unfold duration_stage. rewrite Hm, Hd, filter_In, duration_test_iff.
  split; intros [Hin H]; (split; [done|]); revert H; apply first_duration_impl;
    intros x; apply Z.eqb_eq.
Qed.

Lemma duration_stage_exact_exactly_witness :
  In (sample "Core Java" "45 minutes")
     (duration_stage (extract_constraints (py "a 45 minutes test")) scenario_a)
  <-> In (sample "Core Java" "45 minutes") scenario_a
      /\ first_duration eq 45 (sample "Core Java" "45 minutes").
Proof.
  apply (duration_stage_exact_exactly scenario_a
           (extract_constraints (py "a 45 minutes test")) 45); reflexivity.
Defined.

(** *** The test-type stage *)

Lemma contains_spec (t s : str) :
  contains t s = true <-> exists pre post, s = pre ++ t ++ post.
Proof.
  induction s as [|c s IH]; cbn [contains].
  - rewrite orb_false_r, starts_with_spec. split.
    + intros [post H]. by exists [], post.
    + intros (pre & post & H). symmetry in H.
      apply app_eq_nil in H as [-> H]. exists post. by rewrite H.
  - rewrite orb_true_iff, starts_with_spec, IH. split.
    + intros [[post H]|(pre & post & H)].
      * by exists [], post.
      * exists (c :: pre), post. by rewrite H.
    + intros (pre & post & H). destruct pre as [|x pre].
      * left. by exists post.
      * right. injection H as -> ->. by exists pre, post.
Qed.

Lemma mentions_type_spec (types : list test_kind) (a : Assessment.t) :
  mentions_type types a = true <-> names_type types a.
Proof.
  unfold mentions_type, names_type. rewrite existsb_exists.
  split; intros (t & Hin & H); exists t; (split; [done|]).
  - apply orb_true_iff in H. unfold kind_pattern in H.
    by rewrite contains_spec, matched_word_pattern in H.
  - apply orb_true_iff. unfold kind_pattern.
    by rewrite contains_spec, matched_word_pattern.
Qed.

(** X6: when the test types are set, the test-type stage returns its input
    unchanged if no candidate mentions one of the types (as a substring of
    its lower-cased test type, or between word boundaries in its lower-cased
    description), and otherwise exactly the candidates that do, in their
    order. *)
Theorem test_types_stage_fallback (l : list Assessment.t) (c : Constraints.t)
    (types : list test_kind) :
  Constraints.test_types c = Some types ->
  (forall a, mentions_type types a = true <-> names_type types a)
  /\ (Forall (fun a => ~ names_type types a) l -> test_types_stage c l = l)
  /\ (Exists (names_type types) l ->
      test_types_stage c l = List.filter (mentions_type types) l
      /\ forall a, In a (test_types_stage c l) <-> In a l /\ names_type types a).
Proof.
  intros Hs. unfold test_types_stage. rewrite Hs. split_and!.
  - apply mentions_type_spec.
  - intros Hnone. destruct types as [|k ks]; [done|]. cbv beta iota zeta.
    rewrite filter_none_pass; [done|]. intros a Ha.
    rewrite Forall_forall in Hnone. apply list_elem_of_In, Hnone in Ha.
    destruct (mentions_type (k :: ks) a) eqn:E; [|done].
    by apply mentions_type_spec in E.
  - intros Hsome. apply Exists_exists in Hsome as (a0 & Hin0 & Hn0).
    destruct types as [|k ks]; [by destruct Hn0 as (? & [] & _)|].
    cbv beta iota zeta.
    assert (In a0 (List.filter (mentions_type (k :: ks)) l)) as Hin.
    { apply filter_In. split; [by apply list_elem_of_In|].
      by apply mentions_type_spec. }
    assert (replace_if_any (List.filter (mentions_type (k :: ks)) l) l
            = List.filter (mentions_type (k :: ks)) l) as ->.
    { by destruct (List.filter _ l). }
    split; [done|]. intros a. by rewrite filter_In, mentions_type_spec.
Qed.

Lemma test_types_stage_fallback_witness :
  test_types_stage (extract_constraints (py "a coding test")) scenario_a = scenario_a.
Proof.
  destruct (test_types_stage_fallback scenario_a
              (extract_constraints (py "a coding test")) [coding])
    as (Hspec & H & _); [reflexivity|].
  apply H. unfold scenario_a.
  repeat (apply Forall_cons; split;
          [intros Hn; apply Hspec in Hn; discriminate Hn|]).
  apply Forall_nil_2.
Defined.

(** *** What the extractor returns *)

(** A list of distinct constructors has no duplicate. *)
Ltac distinct_NoDup :=
  repeat (apply NoDup_cons_2;
          [ let H := fresh "H" in
            intros H;
            repeat (apply elem_of_cons in H as [H|H]; [discriminate H|]);
            by apply elem_of_nil in H
          | ]);
  apply NoDup_nil_2.

Lemma filter_NoDup {A : Type} (f : A -> bool) (l : list A) :
  NoDup l -> NoDup (List.filter f l).
Proof. intros H. eapply sublist_NoDup; [exact H | apply filter_sublist]. Qed.

(** X7: a list of skills or of test types that the extractor returns is
    never empty, has no duplicate and follows the order of the vocabulary. *)
Theorem extracted_lists_wellformed (q : str) :
  match Constraints.skills (extract_constraints q) with
  | Some found => found <> [] /\ NoDup found /\ found `sublist_of` tech_skills
  | None => True
  end
  /\ match Constraints.test_types (extract_constraints q) with
     | Some found => found <> [] /\ NoDup found /\ found `sublist_of` test_types
     | None => True
     end.
Proof.
  cbn [extract_constraints Constraints.skills Constraints.test_types]. split.
  - destruct (if_any _) as [found|] eqn:E; [|done].
    pose proof (if_any_Some _ _ E) as ->. split_and!.
    + intros Hnil. by rewrite Hnil in E.
    + apply filter_NoDup. unfold tech_skills. distinct_NoDup.
    + apply filter_sublist.
  - destruct (if_any _) as [found|] eqn:E; [|done].
    pose proof (if_any_Some _ _ E) as ->. split_and!.
    + intros Hnil. by rewrite Hnil in E.
    + apply filter_NoDup. unfold test_types. distinct_NoDup.
    + apply filter_sublist.
Qed.

Lemma found_type (q : str) (t : test_kind) :
  returns_type (extract_constraints q) t <-> word_occurs (kind_string t) (lower q).
Proof.
  unfold returns_type. cbn [extract_constraints Constraints.test_types].
  unfold kind_pattern. rewrite <- matched_word_pattern.
  destruct (if_any _) as [found|] eqn:E.
  - apply if_any_Some in E as ->. rewrite filter_In.
    split; [by intros [_ ?]|]. intros H. split; [|done]. destruct t; cbn; tauto.
  - split; [done|]. intros H.
    assert (In t (List.filter
                    (fun test_type =>
                       matched (re_search (word_pattern (kind_string test_type))
                                  (lower q))) test_types)) as Hin.
    { apply filter_In. split; [|done]. destruct t; cbn; tauto. }
    unfold kind_pattern in E. by destruct (List.filter _ test_types).
Qed.

(** X8: a skill written with letters only is returned exactly when it
    occurs in the lower-cased query as a whole word (so ["javascript"] alone
    does not give ["java"]). *)
Theorem skill_returned_iff_whole_word (q : str) (k : tech_skill) :
  k <> c_plus_plus -> k <> c_sharp ->
  returns_skill (extract_constraints q) k
  <-> whole_word_occurs (skill_text k) (lower q).
Proof. intros H1 H2. by rewrite found_skill, skill_whole_word. Qed.

Lemma skill_returned_iff_whole_word_witness :
  returns_skill (extract_constraints (py "Senior JavaScript developer")) java
  <-> whole_word_occurs (skill_text java) (lower (py "Senior JavaScript developer")).
Proof.
  apply (skill_returned_iff_whole_word (py "Senior JavaScript developer") java);
    discriminate.
Defined.

(** X9: a test type is returned exactly when its word occurs in the
    lower-cased query as a whole word. *)
Theorem type_returned_iff_whole_word (q : str) (t : test_kind) :
  returns_type (extract_constraints q) t
  <-> whole_word_occurs (kind_string t) (lower q).
Proof.
  rewrite found_type.
  destruct t;
    (eapply word_occurs_whole; [reflexivity | reflexivity | reflexivity | reflexivity]).
Qed.

Lemma word_occurs_symbol (t s : str) (c1 c2 : ascii) :
  head t = Some c1 -> is_word c1 = true ->
  last t = Some c2 -> is_word c2 = false ->
  word_occurs t s <-> symbol_occurs t s.
Proof.
  intros Hh Hw1 Hl Hw2. unfold word_occurs, symbol_occurs.
  assert (Ha : forall pre post,
             at_boundary (last pre, t ++ post) = negb (word_before (last pre, t ++ post))).
  { intros pre post. unfold at_boundary, word_after. cbn [snd].
    destruct t as [|x t]; [done|]. injection Hh as ->. cbn. rewrite Hw1.
    by destruct (word_before _). }
  assert (Hb : forall pre post,
             at_boundary (last (pre ++ t), post) = word_after (last (pre ++ t), post)).
  { intros pre post. unfold at_boundary, word_before. cbn [fst].
    rewrite last_app, Hl, Hw2. done. }
  split.
  - intros (pre & post & -> & H1 & H2). rewrite Ha in H1. rewrite Hb in H2.
    unfold word_after in H2. cbn [snd] in H2.
    destruct post as [|c post]; [done|]. exists pre, c, post.
    split_and!; [done | by apply negb_true_iff | done].
  - intros (pre & c & post & -> & H1 & H2). exists pre, (c :: post).
    rewrite Ha, Hb. split_and!; [done | by apply negb_true_iff | done].
Qed.

(** X10: the entries for ["c++"] and ["c#"] are returned exactly when the
    lower-cased query has the token with no word character before it and a
    word character right after it; followed by a space, a punctuation mark
    or the end of the query, they are not found. *)
Theorem symbol_skill_returned_iff (q : str) (k : tech_skill) :
  k = c_plus_plus \/ k = c_sharp ->
  returns_skill (extract_constraints q) k
  <-> symbol_occurs (skill_text k) (lower q).
Proof.
  intros Hk. rewrite found_skill.
  destruct Hk as [-> | ->];
    (eapply word_occurs_symbol; [reflexivity | reflexivity | reflexivity | reflexivity]).
Qed.

Lemma symbol_skill_returned_iff_witness :
  returns_skill (extract_constraints (py "C# developer")) c_sharp
  <-> symbol_occurs (skill_text c_sharp) (lower (py "C# developer")).
Proof.
  apply (symbol_skill_returned_iff (py "C# developer") c_sharp). by right.
Defined.

(** *** The skills stage and whole words *)







(** ** The ways a pattern matches *)

Lemma char_before_app (b : option ascii) (t1 t2 : str) :
  char_before (char_before b t1) t2 = char_before b (t1 ++ t2).
Proof.
  unfold char_before. rewrite last_app. by destruct (last t2), (last t1).
Qed.

Lemma reads_nil (k : option ascii * list ascii) : reads k [] k.
Proof. by destruct k. Qed.

Lemma reads_app (k k1 k2 : option ascii * list ascii) (t1 t2 : str) :
  reads k t1 k1 -> reads k1 t2 k2 -> reads k (t1 ++ t2) k2.
Proof.
  intros [H1 H1'] [H2 H2']. split.
  - by rewrite H1, H2, app_assoc.
  - by rewrite H2', H1', char_before_app.
Qed.

Lemma consumed_reads (k k' : option ascii * list ascii) (t : str) :
  reads k t k' -> consumed k k' = t.
Proof.
  intros [H _]. unfold consumed. rewrite H, length_app, Nat.add_sub.
  apply take_app_length.
Qed.

Lemma In_rep_runs (p : ascii -> bool) (b : option ascii) (s : str)
    (k' : option ascii * list ascii) :
  In k' (rep_runs p b s) <->
  exists ds, Forall (fun c => p c = true) ds /\ reads (b, s) ds k'.
Proof.
  revert b; induction s as [|c s IH]; intros b; cbn [rep_runs].
  - split.
    + intros [<-|[]]. exists []. split; [constructor | apply reads_nil].
    + intros (ds & _ & Hs & Hb). cbn [fst snd] in *. left.
      symmetry in Hs. apply app_eq_nil in Hs as [-> Hk]. cbn in Hb.
      destruct k' as [b' s']. cbn in *. by subst.
  - destruct (p c) eqn:E.
    + rewrite in_app_iff, IH. split.
      * intros [(ds & Hds & Hs & Hb)|[<-|[]]].
        -- exists (c :: ds). split; [by constructor|]. cbn [fst snd] in *. split.
           ++ by rewrite Hs.
           ++ by rewrite char_before_cons.
        -- exists []. split; [constructor | apply reads_nil].
      * intros (ds & Hds & Hs & Hb). cbn [fst snd] in *.
        destruct ds as [|d ds].
        -- right. left. cbn in Hs, Hb. destruct k' as [b' s']. cbn in *. by subst.
        -- left. injection Hs as <- Hs. exists ds.
           split; [by apply Forall_inv_tail in Hds|]. split; [done|].
           by rewrite char_before_cons in Hb.
    + split.
      * intros [<-|[]]. exists []. split; [constructor | apply reads_nil].
      * intros (ds & Hds & Hs & Hb). cbn [fst snd] in *. left.
        destruct ds as [|d ds].
        -- cbn in Hs, Hb. destruct k' as [b' s']. cbn in *. by subst.
        -- injection Hs as <- Hs. apply Forall_inv in Hds. congruence.
Qed.

Lemma In_run_Rep (p : ascii -> bool) (k k' : option ascii * list ascii)
    (g g' : list (nat * list ascii)) :
  In (k', g') (run (Rep p) k g) <->
  g' = g /\ exists ds, Forall (fun c => p c = true) ds /\ reads k ds k'.
Proof.
  cbn [run]. rewrite in_map_iff. destruct k as [b s]. cbn [fst snd]. split.
  - intros (x & [= <- <-] & Hin). split; [done|]. by apply In_rep_runs.
  - intros [-> H]. exists k'. split; [done|]. by apply In_rep_runs.
Qed.

Lemma In_run_Cls (p : ascii -> bool) (k k' : option ascii * list ascii)
    (g g' : list (nat * list ascii)) :
  In (k', g') (run (Cls p) k g) <->
  g' = g /\ exists c, p c = true /\ reads k [c] k'.
Proof.
  cbn [run]. destruct k as [b s]. cbn [fst snd]. destruct s as [|x s].
  - split; [done|]. by intros (_ & c & _ & [= ] & _).
  - destruct (p x) eqn:E.
    + split.
      * intros [[= <- <-]|[]]. split; [done|]. exists x. by split.
      * intros (-> & c & Hc & Hs & Hb). cbn in Hs, Hb. injection Hs as <- Hs.
        left. destruct k' as [b' s']. cbn in *. by subst.
    + split; [done|]. intros (_ & c & Hc & [= <- _] & _). congruence.
Qed.

Lemma In_run_Cat (r1 r2 : regex) (k k' : option ascii * list ascii)
    (g g' : list (nat * list ascii)) :
  In (k', g') (run (Cat r1 r2) k g) <->
  exists k1 g1, In (k1, g1) (run r1 k g) /\ In (k', g') (run r2 k1 g1).
Proof.
  cbn [run]. rewrite in_flat_map. split.
  - intros ([k1 g1] & H1 & H2). by exists k1, g1.
  - intros (k1 & g1 & H1 & H2). by exists (k1, g1).
Qed.

Lemma In_run_Grp (n : nat) (r : regex) (k k' : option ascii * list ascii)
    (g g' : list (nat * list ascii)) :
  In (k', g') (run (Grp n r) k g) <->
  exists g1, In (k', g1) (run r k g) /\ g' = (n, consumed k k') :: g1.
Proof.
  cbn [run]. rewrite in_map_iff. split.
  - intros ([k1 g1] & [= <- <-] & H). by exists g1.
  - intros (g1 & H & ->). by exists (k', g1).
Qed.

Lemma In_run_text (t : str) (k k' : option ascii * list ascii)
    (g g' : list (nat * list ascii)) :
  In (k', g') (run (text t) k g) <-> g' = g /\ reads k t k'.
Proof.
  rewrite run_text. destruct (starts_with t k.2) eqn:E.
  - apply starts_with_drop in E. split.
    + intros [[= <- <-]|[]]. split; [done|]. by split.
    + intros (-> & Hs & Hb). left. destruct k' as [b' s']. cbn [fst snd] in *.
      f_equal. f_equal; [done|]. rewrite Hs. by rewrite drop_app_length.
  - split; [done|]. intros (_ & Hs & _).
    assert (starts_with t k.2 = true) by (apply starts_with_spec; eauto).
    congruence.
Qed.

Lemma In_run_Rep1 (p : ascii -> bool) (k k' : option ascii * list ascii)
    (g g' : list (nat * list ascii)) :
  In (k', g') (run (Rep1 p) k g) <->
  g' = g /\ exists ds, ds <> [] /\ Forall (fun c => p c = true) ds /\ reads k ds k'.
Proof.
  unfold Rep1. rewrite In_run_Cat. split.
  - intros (k1 & g1 & H1 & H2).
    apply In_run_Cls in H1 as (-> & c & Hc & Hr1).
    apply In_run_Rep in H2 as (-> & ds & Hds & Hr2).
    split; [done|]. exists (c :: ds). split_and!; [done | by constructor |].
    by apply (reads_app k k1 k' [c] ds).
  - intros (-> & ds & Hne & Hds & Hs & Hb). destruct ds as [|c ds]; [done|].
    exists (Some c, ds ++ k'.2), g. split.
    + apply In_run_Cls. split; [done|]. exists c.
      split; [by apply Forall_inv in Hds|]. by split.
    + apply In_run_Rep. split; [done|]. exists ds.
      split; [by apply Forall_inv_tail in Hds|]. split; [done|].
      cbn [fst]. by rewrite Hb, char_before_cons.
Qed.

(** The match that [re.search] returns is one of the ways the pattern
    matches at some position of the subject. *)
Lemma search_from_Some (r : regex) (b : option ascii) (s : str)
    (m : list (nat * list ascii)) :
  search_from r b s = Some m ->
  exists pre post k',
    s = pre ++ post /\ In (k', m) (run r (char_before b pre, post) []).
Proof.
  revert b; induction s as [|c s IH]; intros b; cbn [search_from].
  - destruct (run r _ _) as [|[k g] tl] eqn:E; [done|]. intros [= <-].
    exists [], [], k. split; [done|]. change (char_before b []) with b.
    rewrite E. by left.
  - destruct (run r _ _) as [|[k g] tl] eqn:E.
    + intros H. apply IH in H as (pre & post & k' & -> & Hin).
      exists (c :: pre), post, k'. by rewrite char_before_cons.
    + intros [= <-]. exists [], (c :: s), k. split; [done|].
      change (char_before b []) with b. rewrite E. by left.
Qed.

Lemma matched_re_search (r : regex) (s : str) :
  matched (re_search r s) = true <->
  exists pre post k' g',
    s = pre ++ post /\ In (k', g') (run r (last pre, post) []).
Proof.
  unfold re_search. rewrite search_from_matched.
  assert (Hcb : forall pre, char_before None pre = last pre).
  { intros pre. unfold char_before. by destruct (last pre). }
  split.
  - intros (pre & post & -> & Hne). rewrite Hcb in Hne.
    destruct (run r (last pre, post) []) as [|[k' g'] tl] eqn:E; [done|].
    exists pre, post, k', g'. split; [done|]. rewrite E. by left.
  - intros (pre & post & k' & g' & -> & Hin). exists pre, post. split; [done|].
    rewrite Hcb. intros Hnil. by rewrite Hnil in Hin.
Qed.

Lemma reads_split (k k' : option ascii * list ascii) (t1 t2 : str) :
  reads k (t1 ++ t2) k' ->
  exists k1, reads k t1 k1 /\ reads k1 t2 k'.
Proof.
  intros [Hs Hb]. exists (char_before k.1 t1, t2 ++ k'.2). split; split; cbn [fst snd].
  - by rewrite Hs, app_assoc.
  - done.
  - done.
  - by rewrite char_before_app.
Qed.

Lemma reads_subject (pre post t : str) (k' : option ascii * list ascii) :
  reads (last pre, post) t k' -> pre ++ post = pre ++ t ++ k'.2.
Proof. intros [Hs _]. cbn in Hs. by rewrite Hs. Qed.

(** The ways [time_pattern] matches. *)
Lemma In_run_time_pattern (k k' : option ascii * list ascii)
    (g' : list (nat * list ascii)) :
  In (k', g') (run time_pattern k []) <->
  exists ds ws,
    ds <> [] /\ all_digits ds /\ all_spaces ws
    /\ reads k (ds ++ ws ++ py "minutes") k' /\ g' = [(1%nat, ds)].
Proof.
  unfold time_pattern. cbn [seq]. split.
  - intros (k1 & g1 & H1 & H2)%In_run_Cat.
    apply In_run_Grp in H1 as (g0 & H1 & ->).
    apply In_run_Rep1 in H1 as (-> & ds & Hne & Hds & Hr1).
    apply In_run_Cat in H2 as (k2 & g2 & H2 & H3).
    apply In_run_Rep in H2 as (-> & ws & Hws & Hr2).
    apply In_run_text in H3 as (-> & Hr3).
    exists ds, ws. split_and!; try done.
    + eapply reads_app; [exact Hr1|]. eapply reads_app; [exact Hr2 | exact Hr3].
    + by rewrite (consumed_reads k k1 ds).
  - intros (ds & ws & Hne & Hds & Hws & Hr & ->).
    apply reads_split in Hr as (k1 & Hr1 & Hr).
    apply reads_split in Hr as (k2 & Hr2 & Hr3).
    apply In_run_Cat. exists k1, [(1%nat, ds)]. split.
    + apply In_run_Grp. exists []. split.
      * apply In_run_Rep1. split; [done|]. by exists ds.
      * by rewrite (consumed_reads k k1 ds).
    + apply In_run_Cat. exists k2, [(1%nat, ds)]. split.
      * apply In_run_Rep. split; [done|]. by exists ws.
      * by apply In_run_text.
Qed.

Lemma In_run_keywords (k k' : option ascii * list ascii)
    (g g' : list (nat * list ascii)) :
  In (k', g')
     (run (alt (text (py "less than"))
             [text (py "max"); text (py "maximum"); text (py "under");
              text (py "within"); text (py "up to")]) k g) <->
  g' = g /\ exists kw, In kw time_keywords /\ reads k kw k'.
Proof.
  cbn [alt run]. rewrite !in_app_iff, !In_run_text.
  unfold time_keywords. cbn [In]. split.
  - intros [H|[H|[H|[H|[H|H]]]]]; destruct H as [-> H]; (split; [done|]);
      eexists; (split; [|exact H]); tauto.
  - intros (-> & kw & Hkw & H).
    destruct Hkw as [<-|[<-|[<-|[<-|[<-|[<-|[]]]]]]]; tauto.
Qed.

(** The ways [max_time_pattern] matches. *)
Lemma In_run_max_time_pattern (k k' : option ascii * list ascii)
    (g' : list (nat * list ascii)) :
  In (k', g') (run max_time_pattern k []) <->
  exists kw ws1 ds ws2,
    In kw time_keywords /\ all_spaces ws1
    /\ ds <> [] /\ all_digits ds /\ all_spaces ws2
    /\ reads k (kw ++ ws1 ++ ds ++ ws2 ++ py "min") k'
    /\ g' = [(2%nat, ds); (1%nat, kw)].
Proof.
  unfold max_time_pattern. cbn [seq]. split.
  - intros (k1 & g1 & H1 & H2)%In_run_Cat.
    apply In_run_Grp in H1 as (g0 & H1 & ->).
    apply In_run_keywords in H1 as (-> & kw & Hkw & Hr1).
    apply In_run_Cat in H2 as (k2 & g2 & H2 & H3).
    apply In_run_Rep in H2 as (-> & ws1 & Hws1 & Hr2).
    apply In_run_Cat in H3 as (k3 & g3 & H3 & H4).
    apply In_run_Grp in H3 as (g4 & H3 & ->).
    apply In_run_Rep1 in H3 as (-> & ds & Hne & Hds & Hr3).
    apply In_run_Cat in H4 as (k4 & g4 & H4 & H5).
    apply In_run_Rep in H4 as (-> & ws2 & Hws2 & Hr4).
    apply In_run_text in H5 as (-> & Hr5).
    exists kw, ws1, ds, ws2. split_and!; try done.
    + eapply reads_app; [exact Hr1|]. eapply reads_app; [exact Hr2|].
      eapply reads_app; [exact Hr3|]. eapply reads_app; [exact Hr4 | exact Hr5].
    + by rewrite (consumed_reads k k1 kw), (consumed_reads k2 k3 ds).
  - intros (kw & ws1 & ds & ws2 & Hkw & Hws1 & Hne & Hds & Hws2 & Hr & ->).
    apply reads_split in Hr as (k1 & Hr1 & Hr).
    apply reads_split in Hr as (k2 & Hr2 & Hr).
    apply reads_split in Hr as (k3 & Hr3 & Hr).
    apply reads_split in Hr as (k4 & Hr4 & Hr5).
    apply In_run_Cat. exists k1, [(1%nat, kw)]. split.
    { apply In_run_Grp. exists []. split.
      - apply In_run_keywords. split; [done|]. by exists kw.
      - by rewrite (consumed_reads k k1 kw). }
    apply In_run_Cat. exists k2, [(1%nat, kw)]. split.
    { apply In_run_Rep. split; [done|]. by exists ws1. }
    apply In_run_Cat. exists k3, [(2%nat, ds); (1%nat, kw)]. split.
    { apply In_run_Grp. exists [(1%nat, kw)]. split.
      - apply In_run_Rep1. split; [done|]. by exists ds.
      - by rewrite (consumed_reads k2 k3 ds). }
    apply In_run_Cat. exists k4, [(2%nat, ds); (1%nat, kw)]. split.
    { apply In_run_Rep. split; [done|]. by exists ws2. }
    by apply In_run_text.
Qed.

Lemma fold_int_nonneg (ds : str) :
  all_digits ds ->
  forall acc, 0 <= acc ->
  0 <= fold_left (fun acc c => 10 * acc + digit_value c) ds acc.
Proof.
  induction 1 as [|c ds Hc _ IH]; intros acc Hacc; cbn [fold_left]; [done|].
  apply IH. unfold digit_value, is_digit, between in *.
  apply andb_true_iff in Hc as [Hc _]. apply N.leb_le in Hc. lia.
Qed.

Lemma int_nonneg (ds : str) : all_digits ds -> 0 <= int ds.
Proof. intros H. by apply fold_int_nonneg. Qed.

(** X11: [max_duration] is set exactly when the lower-cased query has a
    bounded-time phrase (one of the six keywords, optional white space, a
    number, optional white space, ["min"]); its value is the number of such
    a phrase of the query, and is never negative. *)
Theorem max_duration_phrase (q : str) :
  (forall d, Constraints.max_duration (extract_constraints q) = Some d ->
             bounded_time_phrase d (lower q) /\ 0 <= d)
  /\ ((exists d, bounded_time_phrase d (lower q)) ->
      is_Some (Constraints.max_duration (extract_constraints q))).
Proof.
  cbn [extract_constraints Constraints.max_duration]. split.
  - intros d Hd.
    destruct (re_search max_time_pattern (lower q)) as [m|] eqn:E; [|done].
    injection Hd as <-.
    apply search_from_Some in E as (pre & post & k' & Hq & Hin).
    assert (Hcb : char_before None pre = last pre).
    { unfold char_before. by destruct (last pre). }
    rewrite Hcb in Hin.
    apply In_run_max_time_pattern in Hin
      as (kw & ws1 & ds & ws2 & Hkw & Hws1 & Hne & Hds & Hws2 & Hr & ->).
    cbn [group Nat.eqb]. split; [|by apply int_nonneg].
    exists pre, kw, ws1, ds, ws2, k'.2. split_and!; try done.
    rewrite Hq. by apply reads_subject.
  - intros (d & pre & kw & ws1 & ds & ws2 & post & Hq & Hkw & Hws1 & Hne & Hds
            & Hws2 & _).
    assert (matched (re_search max_time_pattern (lower q)) = true) as Hm.
    { apply matched_re_search.
      exists pre, ((kw ++ ws1 ++ ds ++ ws2 ++ py "min") ++ post),
             (last (pre ++ kw ++ ws1 ++ ds ++ ws2 ++ py "min"), post),
             [(2%nat, ds); (1%nat, kw)].
      split; [done|]. apply In_run_max_time_pattern.
      exists kw, ws1, ds, ws2. split_and!; try done. split; cbn [fst snd]; [done|].
      by rewrite char_before_last. }
    by destruct (re_search max_time_pattern (lower q)).
Qed.

(** X12: [duration] is set exactly when no bounded-time phrase sets
    [max_duration] and the query, as it is written, has a number, optional
    white space and ["minutes"]; its value is the number of such a phrase of
    the query, and is never negative. *)
Theorem duration_phrase (q : str) :
  (forall d, Constraints.duration (extract_constraints q) = Some d ->
             minutes_phrase d q /\ 0 <= d
             /\ Constraints.max_duration (extract_constraints q) = None)
  /\ ((exists d, minutes_phrase d q) ->
      Constraints.max_duration (extract_constraints q) = None ->
      is_Some (Constraints.duration (extract_constraints q))).
Proof.
  cbn [extract_constraints Constraints.max_duration Constraints.duration]. split.
  - intros d Hd.
    destruct (re_search time_pattern q) as [m|] eqn:E; [|done].
    destruct (re_search max_time_pattern (lower q)) as [m'|]; [done|].
    injection Hd as <-.
    apply search_from_Some in E as (pre & post & k' & Hq & Hin).
    assert (Hcb : char_before None pre = last pre).
    { unfold char_before. by destruct (last pre). }
    rewrite Hcb in Hin.
    apply In_run_time_pattern in Hin as (ds & ws & Hne & Hds & Hws & Hr & ->).
    cbn [group Nat.eqb]. split_and!; [|by apply int_nonneg|done].
    exists pre, ds, ws, k'.2. split_and!; try done.
    rewrite Hq. by apply reads_subject.
  - intros (d & pre & ds & ws & post & Hq & Hne & Hds & Hws & _) Hmax.
    assert (matched (re_search time_pattern q) = true) as Hm.
    { apply matched_re_search.
      exists pre, ((ds ++ ws ++ py "minutes") ++ post),
             (last (pre ++ ds ++ ws ++ py "minutes"), post), [(1%nat, ds)].
      split; [done|]. apply In_run_time_pattern.
      exists ds, ws. split_and!; try done. split; cbn [fst snd]; [done|].
      by rewrite char_before_last. }
    destruct (re_search time_pattern q); [|done].
    by destruct (re_search max_time_pattern (lower q)).
Qed.

(** *** Inputs on which no conversion raises *)

Lemma max_time_group_short (s : str) (m : list (nat * list ascii)) :
  re_search max_time_pattern s = Some m -> (length (group m 2) <= length s)%nat.
Proof.
  intros E. apply search_from_Some in E as (pre & post & k' & -> & Hin).
  apply In_run_max_time_pattern in Hin
    as (kw & ws1 & ds & ws2 & _ & _ & _ & _ & _ & [Hr _] & ->).
  cbn [group Nat.eqb]. cbn [snd] in Hr. rewrite Hr, !length_app. lia.
Qed.

Lemma time_group_short (s : str) (m : list (nat * list ascii)) :
  re_search time_pattern s = Some m -> (length (group m 1) <= length s)%nat.
Proof.
  intros E. apply search_from_Some in E as (pre & post & k' & -> & Hin).
  apply In_run_time_pattern in Hin as (ds & ws & _ & _ & _ & [Hr _] & ->).
  cbn [group Nat.eqb]. cbn [snd] in Hr. rewrite Hr, !length_app. lia.
Qed.

Lemma number_group_short (s : str) (m : list (nat * list ascii)) :
  re_search number_pattern s = Some m -> (length (group m 1) <= length s)%nat.
Proof.
  rewrite search_number. destruct (first_number s) as [ds|] eqn:E; [|done].
  intros [= <-]. apply first_number_Some in E as (pre & post & -> & _).
  cbn [group Nat.eqb]. rewrite !length_app. lia.
Qed.

(** A query of at most 4300 characters has no number that [int()]
    refuses. *)
Lemma extract_constraints_call_short (q : str) :
  (length q <= int_max_str_digits)%nat ->
  extract_constraints_call q = Return (extract_constraints q).
Proof.
  intros Hq.
  unfold extract_constraints_call, extract_constraints, mbind, result_bind,
    mret, result_ret.
  destruct (re_search max_time_pattern (lower q)) as [m|] eqn:E1.
  - apply max_time_group_short in E1.
    assert (length (lower q) = length q) as Hlen by apply length_map.
    rewrite int_call_short by lia.
    by destruct (re_search time_pattern q).
  - destruct (re_search time_pattern q) as [m|] eqn:E2; [|done].
    apply time_group_short in E2. by rewrite int_call_short by lia.
Qed.

Lemma duration_test_call_short (cmp : Z -> Z -> bool) (bound : Z)
    (a : Assessment.t) :
  short_duration a ->
  duration_test_call cmp bound a = Return (duration_test cmp bound a).
Proof.
  unfold short_duration, duration_test_call, duration_test, mbind, result_bind.
  destruct (Assessment.duration a) as [d|]; [|done]. intros Hd.
  destruct (re_search number_pattern d) as [m|] eqn:E; [|done].
  apply number_group_short in E. by rewrite int_call_short by lia.
Qed.

Lemma comprehension_call_short (cmp : Z -> Z -> bool) (bound : Z)
    (l : list Assessment.t) :
  Forall short_duration l ->
  comprehension_call (duration_test_call cmp bound) l
  = Return (List.filter (duration_test cmp bound) l).
Proof.
  induction 1 as [|a l Ha _ IH]; [done|].
  cbn [comprehension_call List.filter]. unfold mbind, result_bind.
  rewrite (duration_test_call_short _ _ _ Ha). cbv beta iota. rewrite IH.
  by destruct (duration_test cmp bound a).
Qed.

(** Records whose durations have at most 4300 characters have no number
    that [int()] refuses. *)
Lemma filter_assessments_call_short (l : list Assessment.t) (c : Constraints.t) :
  Forall short_duration l ->
  filter_assessments_call l c = Return (filter_assessments l c).
Proof.
  intros Hl.
  unfold filter_assessments_call, filter_assessments, duration_stage_call,
    duration_stage, mbind, result_bind.
  destruct (Constraints.max_duration c) as [bound|];
    [|destruct (Constraints.duration c) as [exact|]];
    by rewrite ?comprehension_call_short.
Qed.

(** X23: for a query of at most 4300 characters, when the search returns
    records whose durations have at most 4300 characters, [process_query]
    raises nothing: it returns the first [max_results] records of the
    filtered list, or of the search results when the filtered list is
    empty. *)
Theorem process_query_returns (engine : Engine) (q : str) (m : Z)
    (sr : list Assessment.t) :
  (length q <= 4300)%nat ->
  engine_search engine q 20 = Return sr ->
  Forall short_duration sr ->
  process_query engine q m
  = Return (if truthy (filter_assessments sr (extract_constraints q))
            then slice_to (filter_assessments sr (extract_constraints q)) m
            else slice_to sr m).
Proof.
  intros Hq Hs Hsr.
  apply (process_query_return engine q m (extract_constraints q) sr); [|done|].
  - by apply extract_constraints_call_short.
  - by apply filter_assessments_call_short.
Qed.

Lemma process_query_returns_witness :
  process_query (answering scenario_a) (py "java test under 30 minutes") 2
  = Return (if truthy (filter_assessments scenario_a
                         (extract_constraints (py "java test under 30 minutes")))
            then slice_to (filter_assessments scenario_a
                             (extract_constraints (py "java test under 30 minutes"))) 2
            else slice_to scenario_a 2).
Proof.
  apply (process_query_returns (answering scenario_a)
           (py "java test under 30 minutes") 2 scenario_a).
  - vm_compute. lia.
  - reflexivity.
  - repeat (apply Forall_cons; split; [vm_compute; lia|]). apply Forall_nil_2.
Defined.

(** ** The recommendation endpoint *)

Lemma with_url_text_no_url (fetch : str -> result str) (request : QueryRequest.t) :
  QueryRequest.url request = None \/ QueryRequest.url request = Some [] ->
  with_url_text fetch request = inr (strip (QueryRequest.query request)).
Proof. unfold with_url_text. by intros [-> | ->]. Qed.

(** X13: without URL, a query that has fewer than three characters once
    the white space around it is removed is answered by the error 400,
    whatever the engine: the index is not consulted. *)
Theorem recommend_rejects_short_query (fetch : str -> result str)
    (engine : Engine) (request : QueryRequest.t) :
  QueryRequest.url request = None \/ QueryRequest.url request = Some [] ->
  (length (strip (QueryRequest.query request)) < 3)%nat ->
  recommend_assessments fetch engine request
  = HTTPException 400 (py "Query must be at least 3 characters long.").
Proof.
  intros Hurl Hlen. unfold recommend_assessments.
  rewrite with_url_text_no_url by done.
  apply Nat.ltb_lt in Hlen. rewrite Hlen. by rewrite orb_true_r.
Qed.

Lemma recommend_rejects_short_query_witness :
  recommend_assessments offline (raising (BaseException (py "interrupted")))
    (ask "  hr   ")
  = HTTPException 400 (py "Query must be at least 3 characters long.").
Proof.
  apply recommend_rejects_short_query; [by left | vm_compute; lia].
Defined.

(** X14: the endpoint ends in one of five ways: a response with at least
    one and at most ten recommendations, the answer 404, the error 400, the
    error 500, or an exception that does not derive from [Exception]. *)
Theorem recommend_outcomes (fetch : str -> result str) (engine : Engine)
    (request : QueryRequest.t) :
  match recommend_assessments fetch engine request with
  | RecommendResponse recommendations =>
      (1 <= length recommendations <= 10)%nat
  | JSONResponse status_code _ => status_code = 404
  | HTTPException status_code _ => status_code = 400 \/ status_code = 500
  | Propagated e => exists what, e = BaseException what
  end.
Proof.
  unfold recommend_assessments.
  destruct (with_url_text fetch request) as [raised|query_text] eqn:Eq.
  - unfold with_url_text in Eq.
    destruct (QueryRequest.url request) as [[|c url]|]; try discriminate Eq.
    unfold extract_text_from_url in Eq.
    destruct (fetch (c :: url)) as [t|[what|what]]; try discriminate Eq;
      injection Eq as <-; [by left | by exists what].
  - destruct (negb (truthy query_text) || (length query_text <? 3)%nat);
      [by left|].
    destruct (process_query engine query_text 10) as [out|e] eqn:Ep.
    + apply process_query_Return_inv in Ep as (c & sr & f & _ & _ & _ & ->).
      rewrite !slice_to_nonneg by lia.
      set (out := if truthy _ then _ else _).
      assert (Hlen : (length out <= 10)%nat).
      { unfold out. destruct (truthy _); rewrite length_take; lia. }
      destruct out as [|a out]; cbn [truthy negb]; [done|].
      rewrite length_map. cbn [length] in *. lia.
    + destruct e as [what|what]; [by right | by exists what].
Qed.

(** X15: for a request that passes the validation and a query on which
    [extract_constraints] returns, an index whose query raises an exception
    gives the answer 404, as if nothing relevant was found, and not the
    error 500; the error 500 is the answer when the [search] of the engine
    itself raises. *)
Theorem recommend_index_failure (fetch : str -> result str)
    (collection : Collection) (engine : Engine) (request : QueryRequest.t)
    (what what' : str) (c : Constraints.t) :
  QueryRequest.url request = None ->
  (3 <= length (strip (QueryRequest.query request)))%nat ->
  extract_constraints_call (strip (QueryRequest.query request)) = Return c ->
  query collection [strip (QueryRequest.query request)] 20 = Raise (Exception what) ->
  engine_search engine (strip (QueryRequest.query request)) 20
  = Raise (Exception what') ->
  recommend_assessments fetch (EmbeddingEngine collection) request
  = JSONResponse 404 (py "No relevant assessments found")
  /\ recommend_assessments fetch engine request
     = HTTPException 500 (py "Internal server error").
Proof.
  intros Hurl Hlen Hc Hq He. unfold recommend_assessments.
  rewrite with_url_text_no_url by (by left).
  assert (negb (truthy (strip (QueryRequest.query request)))
          || (length (strip (QueryRequest.query request)) <? 3)%nat = false) as ->.
  { apply orb_false_iff. split.
    - destruct (strip _); [cbn in Hlen; lia | done].
    - apply Nat.ltb_ge. lia. }
  split.
  - rewrite (process_query_return _ _ 10 c [] []); [done | done | |].
    + unfold EmbeddingEngine, search. cbn [engine_search]. by rewrite Hq.
    + apply filter_assessments_call_nil.
  - unfold process_query, mbind, result_bind. rewrite Hc. cbv beta iota.
    by rewrite He.
Qed.

Lemma recommend_index_failure_witness :
  recommend_assessments offline (EmbeddingEngine unavailable) (ask " java developer ")
  = JSONResponse 404 (py "No relevant assessments found")
  /\ recommend_assessments offline (raising (Exception (py "no model")))
       (ask " java developer ")
     = HTTPException 500 (py "Internal server error").
Proof.
  apply (recommend_index_failure offline unavailable
           (raising (Exception (py "no model"))) (ask " java developer ")
           (py "index unavailable") (py "no model") (with_skills [java]));
    [reflexivity | vm_compute; lia | reflexivity | reflexivity | reflexivity].
Defined.

(** ** Indexing the assessments *)

Lemma str_of_nat_inj (i j : nat) : str_of_nat i = str_of_nat j -> i = j.
Proof.
  unfold str_of_nat. intros H.
  apply (f_equal string_of_list_ascii) in H.
  rewrite !string_of_list_ascii_of_string in H.
  apply (f_equal NilEmpty.uint_of_string) in H. rewrite !NilEmpty.usu in H.
  injection H as H. apply (f_equal Nat.of_uint) in H.
  by rewrite !Unsigned.of_to in H.
Qed.

Lemma NoDup_map_str_of_nat (l : list nat) :
  NoDup l -> NoDup (map str_of_nat l).
Proof.
  induction 1 as [|i l Hi _ IH]; cbn [map]; [apply NoDup_nil_2|].
  apply NoDup_cons_2; [|done]. intros Hin.
  apply list_elem_of_In, in_map_iff in Hin as (j & Hj & Hin).
  apply str_of_nat_inj in Hj as ->. by apply list_elem_of_In in Hin.
Qed.

(** X16: on a collection without documents and a non-empty list of
    assessments, [process_assessments] calls [collection.add] once, with one
    document, one id and one metadata record per assessment, in their order:
    the id of the assessment at index [i] is [str(i)], the ids are pairwise
    distinct, and the test for empty lists before the call never stops it.
    An exception that derives from [Exception] and that [add] raises is
    absorbed. *)
Theorem process_assessments_add (Coll : Type) (count : Coll -> nat)
    (add : list str -> list str -> list Assessment.t -> Coll -> Coll * option exn)
    (assessments : list Assessment.t) (collection : Coll) :
  assessments <> [] ->
  count collection = 0%nat ->
  exists documents ids,
    process_assessments Coll count add assessments collection
    = caught (add documents ids assessments collection)
    /\ length documents = length assessments
    /\ length ids = length assessments
    /\ NoDup ids
    /\ forall i a, assessments !! i = Some a ->
                   documents !! i = Some (create_document_text a)
                   /\ ids !! i = Some (str_of_nat i).
Proof.
  intros Hne Hcount.
  exists (map create_document_text assessments),
         (map str_of_nat (List.seq 0 (length assessments))).
  split_and!.
  - unfold process_assessments. rewrite Hcount.
    destruct assessments as [|a l]; [done|]. done.
  - by rewrite length_map.
  - by rewrite length_map, length_seq.
  - apply NoDup_map_str_of_nat, NoDup_seq.
  - intros i a Hi. split.
    + by rewrite list_lookup_fmap, Hi.
    + rewrite list_lookup_fmap.
      assert (i < length assessments)%nat as Hlt by (by eapply lookup_lt_Some).
      by rewrite lookup_seq_lt.
Qed.

Lemma process_assessments_add_witness :
  exists documents ids,
    process_assessments (list (str * str * Assessment.t)) length memory_add
      scenario_a []
    = caught (memory_add documents ids scenario_a [])
    /\ length documents = length scenario_a
    /\ length ids = length scenario_a
    /\ NoDup ids
    /\ forall i a, scenario_a !! i = Some a ->
                   documents !! i = Some (create_document_text a)
                   /\ ids !! i = Some (str_of_nat i).
Proof.
  apply (process_assessments_add (list (str * str * Assessment.t)) length
           memory_add scenario_a []); [discriminate | reflexivity].
Defined.

(** X17: indexing is done once: if [collection.add] leaves at least one
    document in the collection whenever it returns without exception for a
    non-empty list of documents, then after a first, successful call of
    [process_assessments] every later call, with whatever assessments,
    leaves the collection as it is. *)
Theorem process_assessments_once (Coll : Type) (count : Coll -> nat)
    (add : list str -> list str -> list Assessment.t -> Coll -> Coll * option exn)
    (assessments later : list Assessment.t) (collection indexed : Coll) :
  (forall documents ids metadatas c c',
      documents <> [] -> add documents ids metadatas c = (c', None) ->
      (0 < count c')%nat) ->
  assessments <> [] ->
  count collection = 0%nat ->
  add (map create_document_text assessments)
      (map str_of_nat (List.seq 0 (length assessments))) assessments collection
  = (indexed, None) ->
  process_assessments Coll count add assessments collection = (indexed, None)
  /\ process_assessments Coll count add later indexed = (indexed, None).
Proof.
  intros Hadd Hne Hcount Hrun. split.
  - unfold process_assessments. rewrite Hcount, Hrun.
    destruct assessments as [|a l]; [done|]. done.
  - assert (0 < count indexed)%nat as Hpos.
    { eapply Hadd; [|exact Hrun]. by destruct assessments. }
    unfold process_assessments. apply Nat.ltb_lt in Hpos. rewrite Hpos.
    by destruct (negb (truthy later)).
Qed.

Lemma process_assessments_once_witness :
  process_assessments (list (str * str * Assessment.t)) length memory_add
    scenario_a []
  = (zip (zip (map str_of_nat (List.seq 0 (length scenario_a)))
              (map create_document_text scenario_a)) scenario_a, None)
  /\ process_assessments (list (str * str * Assessment.t)) length memory_add
       [sample "Another one" "5 minutes"]
       (zip (zip (map str_of_nat (List.seq 0 (length scenario_a)))
                 (map create_document_text scenario_a)) scenario_a)
     = (zip (zip (map str_of_nat (List.seq 0 (length scenario_a)))
                 (map create_document_text scenario_a)) scenario_a, None).
Proof.
  apply (process_assessments_once (list (str * str * Assessment.t)) length
           memory_add scenario_a [sample "Another one" "5 minutes"] []).
  - intros documents ids metadatas c c' Hd. unfold memory_add.
    destruct (_ && _) eqn:E; [|discriminate]. intros [= <-].
    apply andb_true_iff in E as [E1 E2]. apply Nat.eqb_eq in E1, E2.
    rewrite length_app, !length_zip_with.
    destruct documents; [done|]. cbn [length] in *. lia.
  - discriminate.
  - reflexivity.
  - reflexivity.
Defined.

(** ** The fields that the scraper fills *)

Lemma base_url_value : base_url = py "https://www.shl.com".
Proof. reflexivity. Qed.

(** X18: the URL that the scraper stores for a link always starts with
    ["http"]: an [href] that does not is put behind ["https://www.shl.com/"],
    without its leading slashes. *)
Theorem link_url_absolute (href : str) :
  starts_with (py "http") (link_url href) = true
  /\ (starts_with (py "http") href = false ->
      exists slashes rest,
        href = slashes ++ rest
        /\ Forall (fun c => c = "/"%char) slashes
        /\ match rest with [] => True | c :: _ => c <> "/"%char end
        /\ link_url href = py "https://www.shl.com/" ++ rest).
Proof.
  unfold link_url. destruct (starts_with (py "http") href) eqn:E.
  - split; [done | discriminate].
  - rewrite base_url_value. split; [reflexivity|]. intros _.
    exists (take_while (fun c => Ascii.eqb c "/"%char) href),
           (drop_while (fun c => Ascii.eqb c "/"%char) href).
    split_and!.
    + apply take_drop_while.
    + eapply Forall_impl; [apply take_while_all|]. intros c. apply Ascii.eqb_eq.
    + pose proof (drop_while_head (fun c => Ascii.eqb c "/"%char) href) as H.
      destruct (drop_while _ href) as [|c rest]; [done|].
      by apply Ascii.eqb_neq.
    + reflexivity.
Qed.

Lemma apply_feature_remote_testing (t : str) (a : Assessment.t) :
  Assessment.remote_testing (apply_feature t a)
  = if any_in [py "remote testing"; py "remote"; py "online testing"]
         (lower (strip t))
    then Some (yes_or_no (lower (strip t)))
    else Assessment.remote_testing a.
Proof. unfold apply_feature. by repeat case_match. Qed.

Lemma apply_feature_adaptive_irt (t : str) (a : Assessment.t) :
  Assessment.adaptive_irt (apply_feature t a)
  = if any_in [py "adaptive"; py "irt"; py "item response"] (lower (strip t))
    then Some (yes_or_no (lower (strip t)))
    else Assessment.adaptive_irt a.
Proof. unfold apply_feature. by repeat case_match. Qed.

Lemma apply_feature_duration (t : str) (a : Assessment.t) :
  Assessment.duration (apply_feature t a)
  = if any_in [py "duration"; py "time"; py "minutes"] (lower (strip t))
    then match re_search scraped_duration_pattern (lower (strip t)) with
         | Some m => Some (group m 1)
         | None => Assessment.duration a
         end
    else Assessment.duration a.
Proof. unfold apply_feature. by repeat case_match. Qed.

Lemma apply_features_invariant (P : Assessment.t -> Prop)
    (texts : list str) (a : Assessment.t) :
  (forall t a, P a -> P (apply_feature t a)) ->
  P a -> P (apply_features texts a).
Proof.
  intros Hstep. unfold apply_features. revert a.
  induction texts as [|t texts IH]; intros a Ha; cbn [fold_left]; [done|].
  by apply IH, Hstep.
Qed.

(** X19: whatever the texts of the features, the fields [remote_testing]
    and [adaptive_irt] of a scraped assessment are ["Unknown"], ["Yes"] or
    ["No"]. *)
Theorem scraped_flags_tri_state (texts : list str) :
  tri_state (Assessment.remote_testing (apply_features texts blank_assessment))
  /\ tri_state (Assessment.adaptive_irt (apply_features texts blank_assessment)).
Proof.
  apply (apply_features_invariant
           (fun a => tri_state (Assessment.remote_testing a)
                     /\ tri_state (Assessment.adaptive_irt a))).
  - intros t a [Hr Ha].
    rewrite apply_feature_remote_testing, apply_feature_adaptive_irt.
    unfold yes_or_no, tri_state. split; repeat case_match; tauto.
  - split; by left.
Qed.

Lemma In_run_alt_texts (t : str) (ts : list str)
    (k k' : option ascii * list ascii) (g g' : list (nat * list ascii)) :
  In (k', g') (run (alt (text t) (map text ts)) k g) <->
  g' = g /\ exists kw, In kw (t :: ts) /\ reads k kw k'.
Proof.
  revert t; induction ts as [|t' ts IH]; intros t; cbn [map alt].
  - rewrite In_run_text. split.
    + intros [-> H]. split; [done|]. exists t. split; [by left | done].
    + intros (-> & kw & [<-|[]] & H). done.
  - cbn [run]. rewrite in_app_iff, In_run_text, IH. split.
    + intros [[-> H]|(-> & kw & Hkw & H)]; (split; [done|]).
      * exists t. split; [by left | done].
      * exists kw. split; [by right | done].
    + intros (-> & kw & [<-|Hkw] & H); [by left|]. right. split; [done|].
      by exists kw.
Qed.

Lemma space_not_digit (c : ascii) : is_space c = true -> is_digit c = false.
Proof.
  unfold is_space, is_digit, between.
  rewrite !orb_true_iff, !andb_true_iff, !N.leb_le, andb_false_iff, !N.leb_gt.
  lia.
Qed.

(** What [scraped_duration_pattern] captures: digits, then white space and
    a unit, none of which begins with a digit. *)
Lemma scraped_duration_group (s : str) (m : list (nat * list ascii)) :
  re_search scraped_duration_pattern s = Some m ->
  exists ds rest,
    group m 1 = ds ++ rest
    /\ ds <> [] /\ all_digits ds
    /\ match rest with [] => True | c :: _ => is_digit c = false end.
Proof.
  intros H. apply search_from_Some in H as (pre & post & k' & _ & Hin).
  unfold scraped_duration_pattern in Hin. cbn [seq] in Hin.
  apply In_run_Grp in Hin as (g1 & Hin & ->).
  set (k := (char_before None pre, post)) in *.
  apply In_run_Cat in Hin as (k1 & g2 & H1 & Hin).
  apply In_run_Rep1 in H1 as (-> & ds & Hne & Hds & Hr1).
  apply In_run_Cat in Hin as (k2 & g3 & H2 & Hin).
  apply In_run_Rep in H2 as (-> & ws & Hws & Hr2).
  apply In_run_Grp in Hin as (g4 & Hin & ->).
  change [text (py "min"); text (py "m"); text (py "hours"); text (py "hr")]
    with (map text [py "min"; py "m"; py "hours"; py "hr"]) in Hin.
  apply In_run_alt_texts in Hin as (-> & unit & Hunit & Hr3).
  assert (Hr : reads k (ds ++ ws ++ unit) k').
  { eapply reads_app; [exact Hr1|]. eapply reads_app; [exact Hr2 | exact Hr3]. }
  exists ds, (ws ++ unit). cbn [group Nat.eqb].
  rewrite (consumed_reads k k' _ Hr). split_and!; try done.
  destruct ws as [|w ws].
  - cbn [app]. cbn [In] in Hunit.
    destruct Hunit as [<-|[<-|[<-|[<-|[<-|[]]]]]]; reflexivity.
  - cbn [app]. apply space_not_digit. by apply Forall_inv in Hws.
Qed.

(** X20: the duration of a scraped assessment is ["Unknown"], or a text
    that begins with a number: the duration stage of the filter then
    compares that number, whatever the unit behind it, with the bound of the
    constraint. *)
Theorem scraped_duration_readable (texts : list str) :
  Assessment.duration (apply_features texts blank_assessment) = Some (py "Unknown")
  \/ exists n,
      0 <= n
      /\ forall cmp d,
          duration_test cmp d (apply_features texts blank_assessment) = cmp n d.
Proof.
  apply (apply_features_invariant
           (fun a => Assessment.duration a = Some (py "Unknown")
                     \/ exists n, 0 <= n
                                  /\ forall cmp d, duration_test cmp d a = cmp n d)).
  - intros t a Ha.
    assert (Hsame : Assessment.duration (apply_feature t a) = Assessment.duration a ->
                    Assessment.duration (apply_feature t a) = Some (py "Unknown")
                    \/ exists n, 0 <= n
                                 /\ forall cmp d,
                                     duration_test cmp d (apply_feature t a) = cmp n d).
    { intros Heq. destruct Ha as [Ha|(n & Hn & Ha)]; [left; congruence|].
      right. exists n. split; [done|]. intros cmp d. rewrite <- Ha.
      unfold duration_test. by rewrite Heq. }
    pose proof (apply_feature_duration t a) as Hd.
    destruct (any_in _ (lower (strip t))); [|by apply Hsame].
    destruct (re_search scraped_duration_pattern (lower (strip t))) as [m|] eqn:E;
      [|by apply Hsame].
    apply scraped_duration_group in E as (ds & rest & Hg & Hne & Hds & Hrest).
    right. exists (int ds). split; [by apply int_nonneg|]. intros cmp d.
    unfold duration_test. rewrite Hd, Hg, search_number.
    pose proof (first_number_intro [] ds rest (Forall_nil_2 _) Hne Hds Hrest) as Hf.
    change ([] ++ ds ++ rest) with (ds ++ rest) in Hf. rewrite Hf.
    reflexivity.
  - by left.
Qed.

(** ** Recall and precision *)

Lemma names_of_length (predictions : list Assessment.t) (names : list str) :
  names_of predictions = Return names -> length names = length predictions.
Proof.
  revert names; induction predictions as [|pred rest IH]; intros names; cbn [names_of].
  - by intros [= <-].
  - destruct (Assessment.name pred) as [name|]; [|done].
    destruct (names_of rest) as [ns|e]; [|done]. cbn. intros [= <-].
    cbn [length]. f_equal. by apply IH.
Qed.

Lemma count_hits_le_predicted (predicted_ids relevant_ids : list str) :
  (count_hits predicted_ids relevant_ids <= length predicted_ids)%nat.
Proof.
  unfold count_hits, as_set.
  etrans; [apply sublist_length, filter_sublist|].
  apply NoDup_incl_length; [apply NoDup_nodup|].
  intros x Hx. by apply nodup_In in Hx.
Qed.

Lemma count_hits_le_relevant (predicted_ids relevant : list str) :
  (count_hits predicted_ids (as_set relevant) <= length (as_set relevant))%nat.
Proof.
  unfold count_hits. apply NoDup_incl_length.
  - apply List.NoDup_filter, NoDup_nodup.
  - intros x Hx. apply filter_In in Hx as [_ Hx]. unfold member in Hx.
    by destruct (in_dec _ x (as_set relevant)).
Qed.

Lemma length_slice_to {A : Type} (l : list A) (k : Z) :
  0 <= k -> Z.of_nat (length (slice_to l k)) <= k.
Proof. intros Hk. rewrite slice_to_nonneg, length_take by done. lia. Qed.

(** X21: when [calculate_recall_at_k] returns a quotient, its divisor, the
    number of distinct relevant ids, is not zero and its dividend, the
    number of hits, is at most the divisor: the recall is at most 1; for
    [k >= 0] the number of hits is also at most [k]. *)
Theorem recall_quotient_bounded (groundtruth : str -> option (list str))
    (query_id : str) (predictions : list Assessment.t) (k : Z) (hits n : nat) :
  calculate_recall_at_k groundtruth query_id predictions k
  = Return (Quotient hits n) ->
  (0 < n)%nat /\ (hits <= n)%nat /\ (0 <= k -> Z.of_nat hits <= k).
Proof.
  unfold calculate_recall_at_k.
  destruct (groundtruth query_id) as [relevant|]; [|done].
  destruct (names_of (slice_to predictions k)) as [ids|e] eqn:E; [|done]. cbn.
  destruct (as_set relevant) as [|r rs] eqn:Er; [done|]. cbn [truthy].
  intros [= <- <-]. split_and!.
  - cbn. lia.
  - pose proof (count_hits_le_relevant ids relevant) as H. by rewrite Er in H.
  - intros Hk. pose proof (count_hits_le_predicted ids (r :: rs)).
    apply names_of_length in E. pose proof (length_slice_to predictions k Hk). lia.
Qed.

Lemma recall_quotient_bounded_witness :
  calculate_recall_at_k one_query_truth (py "query1") scenario_a 2
  = Return (Quotient 1 2)
  /\ (0 < 2)%nat /\ (1 <= 2)%nat /\ (0 <= 2 -> Z.of_nat 1 <= 2).
Proof.
  split; [reflexivity|].
  apply (recall_quotient_bounded one_query_truth (py "query1") scenario_a 2 1 2).
  reflexivity.
Defined.

(** X22: for [k >= 0], when [calculate_precision_at_k] returns a quotient,
    its divisor, the number of predictions looked at, is not zero and at
    most [k], and its dividend, the number of hits, is at most the divisor:
    the precision is at most 1. *)
Theorem precision_quotient_bounded (groundtruth : str -> option (list str))
    (query_id : str) (predictions : list Assessment.t) (k : Z) (hits n : nat) :
  0 <= k ->
  calculate_precision_at_k groundtruth query_id predictions k
  = Return (Quotient hits n) ->
  (0 < n)%nat /\ (hits <= n)%nat /\ Z.of_nat n <= k.
Proof.
  intros Hk. unfold calculate_precision_at_k.
  destruct (groundtruth query_id) as [relevant|]; [|done].
  destruct (names_of (slice_to predictions k)) as [ids|e] eqn:E; [|done]. cbn.
  assert (Hsame : slice_to ids k = ids).
  { rewrite slice_to_nonneg by done. apply take_ge.
    apply names_of_length in E. pose proof (length_slice_to predictions k Hk). lia. }
  rewrite Hsame. destruct (truthy ids) eqn:Et; [|done].
  intros [= <- <-]. split_and!.
  - destruct ids; [done|]. cbn. lia.
  - apply count_hits_le_predicted.
  - apply names_of_length in E. rewrite E. by apply length_slice_to.
Qed.

Lemma precision_quotient_bounded_witness :
  calculate_precision_at_k one_query_truth (py "query1") scenario_a 2
  = Return (Quotient 1 2)
  /\ (0 < 2)%nat /\ (1 <= 2)%nat /\ Z.of_nat 2 <= 2.
Proof.
  split; [reflexivity|].
  apply (precision_quotient_bounded one_query_truth (py "query1") scenario_a 2 1 2);
    [lia | reflexivity].
Defined.
